(** * HubMap: fold orchestration of training and inference

    A shallow embedding of [code/training/main.py] and
    [code/inference/main.py].  Python floats are IEEE binary64 numbers
    (Rocq's primitive floats); data frames are lists of rows; every call
    into a library (torch, numpy, the model zoo, the data sets, the
    tile predictors, the metrics) is an entry of a trace together with
    the result it gave, and may raise.  The two files are embedded in the
    modules [Training] and [Inference]. *)

From Stdlib Require Import ZArith Floats Ascii String.
From stdpp Require Import list strings gmap pretty.

Local Open Scope string_scope.
Local Open Scope list_scope.
#[local] Set Warnings "-inexact-float".

(** ** Python values, exceptions and results *)

Inductive exn :=
| KeyError (key : string)
| IndexError
| TypeError
| ValueError
| AttributeError
| LibraryError (what : string).

Inductive result (A : Type) :=
| Ok (a : A)
| Raise (e : exn).
Arguments Ok {A} a.
Arguments Raise {A} e.

Definition is_ok {A} (r : result A) : bool :=
  match r with Ok _ => true | Raise _ => false end.

(** ** Data frames (pandas) *)

Inductive Cell :=
| CInt (z : Z)
| CFloat (f : float)
| CStr (s : string).

(** The value a cell compares by. Numbers compare by value, whatever
    their type ([1 == 1.0], [0.0 == -0.0]): a number other than zero is
    an odd integer times a power of two, in one way only. NaN has no
    value. *)
Inductive cell_key :=
| KZero
| KNum (negative : bool) (odd : positive) (exponent : Z)
| KInf (negative : bool)
| KStr (s : string).

Global Instance cell_key_eq_dec : EqDecision cell_key.
Proof. solve_decision. Defined.

Fixpoint odd_part (m : positive) : positive * Z :=
  match m with
  | xO m' => let '(o, k) := odd_part m' in (o, (k + 1)%Z)
  | _ => (m, 0%Z)
  end.

Definition key_of_int (z : Z) : cell_key :=
  match z with
  | Z0 => KZero
  | Zpos p => let '(o, k) := odd_part p in KNum false o k
  | Zneg p => let '(o, k) := odd_part p in KNum true o k
  end.

Definition key_of_float (f : float) : option cell_key :=
  match Prim2SF f with
  | SpecFloat.S754_zero _ => Some KZero
  | SpecFloat.S754_infinity s => Some (KInf s)
  | SpecFloat.S754_nan => None
  | SpecFloat.S754_finite s m e =>
      let '(o, k) := odd_part m in Some (KNum s o (e + k)%Z)
  end.

Definition key_of (c : Cell) : option cell_key :=
  match c with
  | CInt z => Some (key_of_int z)
  | CFloat f => key_of_float f
  | CStr s => Some (KStr s)
  end.

(** Elementwise [==] of a cell with a scalar: equal values, so that
    [nan == nan] is false. [!=] is its negation. *)
Definition cell_eq (a b : Cell) : bool :=
  match key_of a, key_of b with
  | Some x, Some y => bool_decide (x = y)
  | _, _ => false
  end.

Definition cell_ne (a b : Cell) : bool := negb (cell_eq a b).

(** The identity [unique] hashes on: as [==], but all NaNs are one value. *)
Definition cell_same (a b : Cell) : bool := bool_decide (key_of a = key_of b).

Record Row := { label : Z; cells : gmap string Cell }.

Record DataFrame := { columns : list string; rows : list Row }.

Definition row_get (name : string) (r : Row) : Cell :=
  default (CFloat nan) (cells r !! name).

(** [df[name]] *)
Definition getitem (df : DataFrame) (name : string) : result (list Cell) :=
  if bool_decide (name ∈ columns df)
  then Ok (map (row_get name) (rows df))
  else Raise (KeyError name).

(** [df.name] *)
Definition getattr (df : DataFrame) (name : string) : result (list Cell) :=
  if bool_decide (name ∈ columns df)
  then Ok (map (row_get name) (rows df))
  else Raise AttributeError.

(** [xs[mask]]: the entries at which the boolean mask holds. *)
Fixpoint select_mask {A} (xs : list A) (mask : list bool) : list A :=
  match xs, mask with
  | x :: xs', b :: mask' =>
      if b then x :: select_mask xs' mask' else select_mask xs' mask'
  | _, _ => []
  end.

Definition df_select (df : DataFrame) (mask : list bool) : DataFrame :=
  {| columns := columns df; rows := select_mask (rows df) mask |}.

(** [series.unique()]: the values in order of first appearance. *)
Fixpoint unique_from {A} (same : A → A → bool) (seen : list A) (xs : list A) : list A :=
  match xs with
  | [] => []
  | x :: xs' =>
      if existsb (same x) seen then unique_from same seen xs'
      else x :: unique_from same (x :: seen) xs'
  end.

Definition unique {A} (same : A → A → bool) (xs : list A) : list A :=
  unique_from same [] xs.

(** [df.reset_index()]: the old labels become a column ("index", or
    "level_0" when "index" is taken) and the rows are numbered anew. *)
Fixpoint relabel (name : string) (k : Z) (rs : list Row) : list Row :=
  match rs with
  | [] => []
  | r :: rs' =>
      {| label := k; cells := <[name := CInt (label r)]> (cells r) |}
        :: relabel name (k + 1) rs'
  end.

Definition reset_index (df : DataFrame) : result DataFrame :=
  let fresh_column :=
    if bool_decide ("index" ∈ columns df)
    then if bool_decide ("level_0" ∈ columns df) then None else Some "level_0"
    else Some "index" in
  match fresh_column with
  | Some name => Ok {| columns := name :: columns df; rows := relabel name 0 (rows df) |}
  | None => Raise ValueError
  end.

(** [enumerate(xs)] *)
Fixpoint enumerate_from {A} (k : nat) (xs : list A) : list (nat * A) :=
  match xs with
  | [] => []
  | x :: xs' => (k, x) :: enumerate_from (S k) xs'
  end.

Definition enumerate {A} (xs : list A) : list (nat * A) := enumerate_from 0 xs.

(** ** Strings *)

(** [x.split("_")[0]]: the text before the first underscore. *)
Fixpoint split_head (s : string) : string :=
  match s with
  | EmptyString => EmptyString
  | String c s' => if Ascii.eqb c "_"%char then EmptyString else String c (split_head s')
  end.

Fixpoint is_prefix (p s : string) : bool :=
  match p, s with
  | EmptyString, _ => true
  | String a p', String b s' => Ascii.eqb a b && is_prefix p' s'
  | String _ _, EmptyString => false
  end.

(** [p in s] on strings *)
Fixpoint contains (p s : string) : bool :=
  is_prefix p s ||
  match s with
  | EmptyString => false
  | String _ s' => contains p s'
  end.

(** [folder + name] where [folder] may be [None] *)
Definition str_add (folder : option string) (name : string) : result string :=
  match folder with
  | Some f => Ok (f +:+ name)
  | None => Raise TypeError
  end.

(** ** Library objects

    Objects of the libraries are handles; the attributes the code reads
    ([len(dataset)], [dataset.mask], [meter.pred_mask],
    [history.dice.values]) are fields. [Tensor] stands for torch tensors
    and numpy arrays alike. *)

Record Model := { model_id : nat }.
Record Tensor := { tensor_id : nat }.
Record Transforms := { transforms_id : nat }.
Record Dataset := { dataset_id : nat; dataset_len : nat }.
Record InferenceDataset := { inference_id : nat; mask : Tensor }.
Record Meter := { meter_id : nat; pred_mask : Tensor }.
Record History := { history_id : nat; dice : list float }.

Record Config := {
  seed : Z;
  decoder : string;
  encoder : string;
  num_classes : Z;
  encoder_weights : string;
  device : string;
  img_dir : string;
  mask_dir : string;
  optimizer : string;
  loss : string;
  activation : string;
  epochs : Z;
  batch_size : Z;
  val_bs : Z;
  lr : float;
  warmup_prop : float;
  swa_first_epoch : Z;
  verbose : Z;
  first_epoch_eval : Z;
  save_weights : bool;
  cv_column : string;
  selected_folds : list Z;
  overlap_factor : float;
  reduce_factor : Z;
}.

(** The constants of [params.py], which is not part of the sources. *)
Record Params := {
  REDUCE_FACTOR : Z;
  SIZE : Z;
  TILE_SIZE : Z;
  TIFF_PATH : string;
  TIFF_PATH_4 : string;
  DATA_PATH : string;
}.

(** What [print] is given. *)
Inductive message :=
| MsgTrainingImages (n : nat)
| MsgValidationImages (n : nat)
| MsgParameters (n : Z)
| MsgValidating
| MsgScored (score : float) (img : string) (threshold : float)
| MsgScoredDownscaled (score : float) (img : string) (threshold : float)
| MsgFold (i n : nat)
| MsgAverage (mean std : float).

(** ** Calls and traces *)

Inductive call : Type → Type :=
| SeedEverything (s : Z) : call unit
| DefineModel (dec enc : string) (classes : Z) (weights dev : string) : call Model
| ZeroGrad (m : Model) : call unit
| EvalMode (m : Model) : call unit
| HEPreprocess (augment visualize : option bool) : call Transforms
| TileDataset (df : DataFrame) (imgs masks : string) (t : Transforms) : call Dataset
| CountParameters (m : Model) : call Z
| Fit (m : Model) (train_dataset val_dataset : Dataset) (config : Config) : call (Meter * History)
| SaveModelWeights (m : Model) (name cp_folder : string) : call unit
| SaveAsJit (m : Model) (folder name : string) (train_img_size : Z) : call unit
| LoadModelWeights (m : Model) (path : string) : call unit
| ReadCsv (path : string) : call DataFrame
| MakeInferenceDataset (path : string) (rle : list Cell) (overlap : float)
    (reduce : Z) (tile_size : option Z) (t : Transforms) : call InferenceDataset
| PredictEntireMaskNoThresholding (d : InferenceDataset) (m : Model) (bs : Z)
    (upscale : bool) : call Tensor
| PredictEntireMask (d : InferenceDataset) (m : Model) (bs : Z) (tta : bool) : call Tensor
| PredictEntireMaskDownscaled (d : InferenceDataset) (m : Model) (bs : Z)
    (tta : bool) : call Tensor
| PlotThreshScores (truth pred : Tensor) (plot : bool) : call (float * float)
| TweakThreshold (truth pred : Tensor) : call (float * float)
| FromNumpyCuda (a : Tensor) : call Tensor
| CpuNumpy (t : Tensor) : call Tensor
| AsTypeInt (values : list (Cell * Cell)) : call (list (Z * Z))
| Enc2Mask (enc : list Cell) (shape : Z * Z) : call Tensor
| ThresholdResizeTorch (pred : Tensor) (shape : Z * Z) (threshold : float) : call Tensor
| GreaterThan (pred : Tensor) (threshold : float) : call Tensor
| DiceScoresImg (pred truth : Tensor) : call float
| NpSave (path : string) (a : Tensor) : call unit
| HistoryToCsv (h : History) (path : string) : call unit
| NpMean (xs : list float) : call float
| NpStd (xs : list float) : call float
| EmptyCache : call unit
| GcCollect : call unit
| Print (msg : message) : call unit
| DelModel (m : Model) : call unit
| DelMeter (m : Meter) : call unit.

(** One entry of the trace: a call and what it gave. *)
Inductive event :=
| Ev {A : Type} (c : call A) (r : result A).

(** The world outside: what a call gives, given all that happened before. *)
Definition Env := ∀ A : Type, list event → call A → result A.

(** ** The store of Python lists that are shared *)

Inductive pyval :=
| PFloat (f : float)
| PList (l : nat).

Definition heap := list (list pyval).

(** ** The monad: environment, history and store in; new events, store
    and a result out. *)

Definition M (A : Type) : Type :=
  Env → list event → heap → list event * heap * result A.

Definition ret {A} (a : A) : M A := λ _ _ hp, ([], hp, Ok a).

Definition bind {A B} (m : M A) (k : A → M B) : M B := λ env h hp,
  match m env h hp with
  | (evs1, hp1, Ok a) =>
      match k a env (h ++ evs1) hp1 with
      | (evs2, hp2, r) => (evs1 ++ evs2, hp2, r)
      end
  | (evs1, hp1, Raise e) => (evs1, hp1, Raise e)
  end.

Global Instance M_ret : MRet M := @ret.
Global Instance M_bind : MBind M := λ A B k m, bind m k.

(** A value computed without the libraries, or the exception it raised. *)
Definition lift {A} (r : result A) : M A := λ _ _ hp, ([], hp, r).

(** A call into a library. *)
Definition ext {A} (c : call A) : M A := λ env h hp,
  let r := env A h c in ([Ev c r], hp, r).

(** A statement of the language that cannot fail, kept in the trace. *)
Definition emit (c : call unit) : M unit := λ _ _ hp, ([Ev c (Ok ())], hp, Ok ()).

(** [xs = []] *)
Definition new_list : M nat := λ _ _ hp, ([], hp ++ [[]], Ok (length hp)).

(** [xs.append(v)] *)
Definition list_append (l : nat) (v : pyval) : M unit := λ _ _ hp,
  ([], alter (λ xs, xs ++ [v]) l hp, Ok ()).

(** A [for] loop over [xs] whose body updates the local variables [s] and
    may [return] a value, which ends the loop. *)
Fixpoint for_each {X S R} (xs : list X) (body : X → S → M (S * option R)) (s : S)
  : M (S * option R) :=
  match xs with
  | [] => ret (s, None)
  | x :: xs' =>
      bind (body x s) (λ sr,
        match sr.2 with
        | Some v => ret (sr.1, Some v)
        | None => for_each xs' body sr.1
        end)
  end.

(** [xs[-1]] *)
Definition last_item {A} (xs : list A) : result A :=
  match last xs with
  | Some x => Ok x
  | None => Raise IndexError
  end.

(** [xs[0]] *)
Definition first_item {A} (xs : list A) : result A :=
  match xs with
  | x :: _ => Ok x
  | [] => Raise IndexError
  end.

(** A [for] loop with no [return] in its body. *)
Definition for_in {X S} (xs : list X) (body : X → S → M S) (s : S) : M S :=
  sr ← for_each (R := Empty_set) xs (λ x s, s' ← body x s; ret (s', None)) s;
  ret sr.1.

(** [series.apply(lambda x: x.split("_")[0])] *)
Fixpoint apply_split_head (cs : list Cell) : result (list string) :=
  match cs with
  | [] => Ok []
  | CStr s :: cs' =>
      match apply_split_head cs' with
      | Ok ss => Ok (split_head s :: ss)
      | Raise e => Raise e
      end
  | _ :: _ => Raise AttributeError
  end.

(** [df[df[column] == value]] and [df[df[column] != value]] *)
Definition where_eq (df : DataFrame) (column : string) (value : Cell) : result DataFrame :=
  match getitem df column with
  | Ok col => Ok (df_select df (map (λ c, cell_eq c value) col))
  | Raise e => Raise e
  end.

Definition where_ne (df : DataFrame) (column : string) (value : Cell) : result DataFrame :=
  match getitem df column with
  | Ok col => Ok (df_select df (map (λ c, cell_ne c value) col))
  | Raise e => Raise e
  end.

(** [df_val["tile_name"].apply(lambda x: x.split("_")[0]).unique()] *)
Definition images_of (df_val : DataFrame) : result (list string) :=
  match getitem df_val "tile_name" with
  | Ok names =>
      match apply_split_head names with
      | Ok heads => Ok (unique String.eqb heads)
      | Raise e => Raise e
      end
  | Raise e => Raise e
  end.

(** [rles[rles["id"] == img]["encoding"]] *)
Definition encoding_of (rles : DataFrame) (img : string) : result (list Cell) :=
  match where_eq rles "id" (CStr img) with
  | Ok sel => getitem sel "encoding"
  | Raise e => Raise e
  end.

(** ** code/training/main.py *)

Module Training.

Definition train (params : Params) (config : Config) (df_train df_val : DataFrame)
    (fold : nat) (log_folder : option string) : M (Meter * History * Model) :=
  ext (SeedEverything (seed config));;
  model ← ext (DefineModel (decoder config) (encoder config) (num_classes config)
                 (encoder_weights config) (device config));
  ext (ZeroGrad model);;
  t_train ← ext (HEPreprocess None None);
  train_dataset ← ext (TileDataset df_train (img_dir config) (mask_dir config) t_train);
  t_val ← ext (HEPreprocess (Some false) None);
  val_dataset ← ext (TileDataset df_val (img_dir config) (mask_dir config) t_val);
  n_parameters ← ext (CountParameters model);
  emit (Print (MsgTrainingImages (dataset_len train_dataset)));;
  emit (Print (MsgValidationImages (dataset_len val_dataset)));;
  emit (Print (MsgParameters n_parameters));;
  mh ← ext (Fit model train_dataset val_dataset config);
  match save_weights config, log_folder with
  | true, Some folder =>
      let name := decoder config +:+ "_" +:+ encoder config +:+ "_" +:+ pretty fold +:+ ".pt" in
      ext (SaveModelWeights model name folder);;
      if negb (contains "efficientnet" name)
      then ext (SaveAsJit model folder name (SIZE params))
      else ret ()
  | _, _ => ret ()
  end;;
  ret (mh.1, mh.2, model).

(** The body of the loop of [validate]; [scores] and [thresholds] are
    the two lists of the function, in the store. *)
Definition validate_image (params : Params) (model : Model) (config : Config)
    (log_folder : option string) (use_full_size : bool) (rles : DataFrame)
    (scores thresholds : nat) (img : string) : M unit :=
  let root := if use_full_size then TIFF_PATH params else TIFF_PATH_4 params in
  let reduce := if use_full_size then REDUCE_FACTOR params else 1%Z in
  let bs := (val_bs config `div` 4)%Z in
  rle ← lift (encoding_of rles img);
  t ← ext (HEPreprocess (Some false) (Some false));
  predict_dataset ← ext (MakeInferenceDataset (root +:+ "/" +:+ img +:+ ".tiff") rle
                           (overlap_factor config) reduce None t);
  global_pred ← ext (PredictEntireMaskNoThresholding predict_dataset model bs use_full_size);
  ts ← ext (PlotThreshScores (mask predict_dataset) global_pred false);
  let threshold := ts.1 in
  let score := ts.2 in
  list_append thresholds (PFloat threshold);;
  list_append scores (PList scores);;
  match log_folder with
  | Some folder => ext (NpSave (folder +:+ "global_pred_" +:+ img +:+ ".npy") global_pred)
  | None => ret ()
  end;;
  emit (Print (MsgScored score img threshold)).

Definition validate (params : Params) (model : Model) (config : Config)
    (val_images : list string) (log_folder : option string) (use_full_size : bool)
    : M (nat * nat) :=
  let rle_path :=
    if use_full_size then DATA_PATH params +:+ "train.csv"
    else DATA_PATH params +:+ "train_4.csv" in
  rles ← ext (ReadCsv rle_path);
  emit (Print MsgValidating);;
  scores ← new_list;
  thresholds ← new_list;
  for_in val_images
    (λ img _, validate_image params model config log_folder use_full_size rles
                scores thresholds img) ();;
  ret (scores, thresholds).

(** One turn of the loop of [k_fold]; [cvs] is the running list. *)
Definition k_fold_step (params : Params) (config : Config) (df : DataFrame)
    (log_folder : option string) (n_folds : nat) (ifold : nat * Cell) (cvs : list float)
    : M (list float * option Meter) :=
  let i := ifold.1 in
  let fold := ifold.2 in
  if bool_decide (Z.of_nat i ∈ selected_folds config) then
    emit (Print (MsgFold (i + 1) n_folds));;
    df_train0 ← lift (where_ne df (cv_column config) fold);
    df_train ← lift (reset_index df_train0);
    df_val0 ← lift (where_eq df (cv_column config) fold);
    df_val ← lift (reset_index df_val0);
    mhm ← train params config df_train df_val i log_folder;
    let meter := mhm.1.1 in
    let history := mhm.1.2 in
    let model := mhm.2 in
    final ← lift (last_item (dice history));
    let cvs := cvs ++ [final] in
    val_images ← lift (images_of df_val);
    validate params model config val_images log_folder false;;
    emit (DelModel model);;
    ext EmptyCache;;
    match log_folder with
    | Some folder =>
        ext (NpSave (folder +:+ "pred_mask_" +:+ pretty i +:+ ".npy") (pred_mask meter));;
        ext (HistoryToCsv history (folder +:+ "history_" +:+ pretty i +:+ ".csv"))
    | None => ret ()
    end;;
    if bool_decide (log_folder = None) || Nat.eqb (length (selected_folds config)) 1
    then ret (cvs, Some meter)
    else
      emit (DelMeter meter);;
      ext GcCollect;;
      ret (cvs, None)
  else ret (cvs, None).

Definition k_fold_loop (params : Params) (config : Config) (df : DataFrame)
    (log_folder : option string) (folds : list Cell) (cvs : list float)
    : M (list float * option Meter) :=
  for_each (enumerate folds) (k_fold_step params config df log_folder (length folds)) cvs.

Definition k_fold (params : Params) (config : Config) (df : DataFrame)
    (log_folder : option string) : M (option Meter) :=
  col ← lift (getitem df (cv_column config));
  let folds := unique cell_same col in
  let cvs := [] in
  out ← k_fold_loop params config df log_folder folds cvs;
  match out.2 with
  | Some meter => ret (Some meter)
  | None =>
      mean ← ext (NpMean out.1);
      std ← ext (NpStd out.1);
      emit (Print (MsgAverage mean std));;
      ret None
  end.

End Training.

(** ** code/inference/main.py *)

Module Inference.

(** [df_info[df_info.image_file == img + ".tiff"][["width_pixels",
    "height_pixels"]].values.astype(int)[0]] *)
Definition shape_of (df_info : DataFrame) (img : string) : M (Z * Z) :=
  files ← lift (getattr df_info "image_file");
  let sel := df_select df_info (map (λ c, cell_eq c (CStr (img +:+ ".tiff"))) files) in
  widths ← lift (getitem sel "width_pixels");
  heights ← lift (getitem sel "height_pixels");
  shapes ← ext (AsTypeInt (zip widths heights));
  lift (first_item shapes).

(** The body of the loop of [validate_inf]. Its local variables that
    live across turns are [scores] and [global_threshold]. *)
Definition validate_inf_image (params : Params) (model : Model) (config : Config)
    (log_folder : option string) (use_full_size use_tta save : bool)
    (df_info rles rles_full : DataFrame) (img : string)
    (locals : list float * option float) : M (list float * option float) :=
  let scores := locals.1 in
  let global_threshold := locals.2 in
  let root :=
    if use_full_size then TIFF_PATH params
    else DATA_PATH params +:+ "train_" +:+ pretty (reduce_factor config) +:+ "/" in
  let reduce := if use_full_size then REDUCE_FACTOR params else 1%Z in
  rle ← lift (encoding_of rles img);
  t ← ext (HEPreprocess (Some false) (Some false));
  predict_dataset ← ext (MakeInferenceDataset (root +:+ "/" +:+ img +:+ ".tiff") rle
                           (overlap_factor config) reduce (Some (TILE_SIZE params)) t);
  pts ← (if use_full_size then
           global_pred ← ext (PredictEntireMask predict_dataset model (val_bs config) use_tta);
           ret (global_pred, (0.4%float, 0%float))
         else
           global_pred ← ext (PredictEntireMaskDownscaled predict_dataset model
                                (val_bs config) use_tta);
           truth ← ext (FromNumpyCuda (mask predict_dataset));
           ts ← ext (TweakThreshold truth global_pred);
           emit (Print (MsgScoredDownscaled ts.2 img ts.1));;
           ret (global_pred, ts));
  let global_pred := pts.1 in
  let threshold := pts.2.1 in
  shape ← shape_of df_info img;
  rle_full ← lift (encoding_of rles_full img);
  mask_truth ← ext (Enc2Mask rle_full shape);
  let global_threshold :=
    match global_threshold with
    | Some g => g
    | None => threshold
    end in
  (if save then
     path ← lift (str_add log_folder ("pred_" +:+ img +:+ ".npy"));
     a ← ext (CpuNumpy global_pred);
     ext (NpSave path a)
   else ret ());;
  global_pred ← (if negb use_full_size
                 then ext (ThresholdResizeTorch global_pred shape global_threshold)
                 else
                   b ← ext (GreaterThan global_pred global_threshold);
                   ext (CpuNumpy b));
  score ← ext (DiceScoresImg global_pred mask_truth);
  let scores := scores ++ [score] in
  emit (Print (MsgScored score img global_threshold));;
  ret (scores, Some global_threshold).

Definition validate_inf (params : Params) (model : Model) (config : Config)
    (val_images : list string) (log_folder : option string)
    (use_full_size : bool) (global_threshold : option float) (use_tta save : bool)
    : M (list float) :=
  df_info ← ext (ReadCsv (DATA_PATH params +:+ "HuBMAP-20-dataset_information.csv"));
  let rle_path :=
    if use_full_size then DATA_PATH params +:+ "train.csv"
    else DATA_PATH params +:+ "train_" +:+ pretty (reduce_factor config) +:+ ".csv" in
  rles ← ext (ReadCsv rle_path);
  rles_full ← ext (ReadCsv (DATA_PATH params +:+ "train.csv"));
  emit (Print MsgValidating);;
  locals ← for_in val_images
    (validate_inf_image params model config log_folder use_full_size use_tta save
       df_info rles rles_full)
    ([], global_threshold);
  ret locals.1.

(** One turn of the loop of [k_fold_inf]. *)
Definition k_fold_inf_step (params : Params) (config : Config) (df : DataFrame)
    (log_folder : option string) (use_full_size : bool) (global_threshold : option float)
    (use_tta save : bool) (n_folds : nat) (ifold : nat * Cell) (scores : list float)
    : M (list float) :=
  let i := ifold.1 in
  let fold := ifold.2 in
  if bool_decide (Z.of_nat i ∈ selected_folds config) then
    emit (Print (MsgFold (i + 1) n_folds));;
    df_val0 ← lift (where_eq df (cv_column config) fold);
    df_val ← lift (reset_index df_val0);
    val_images ← lift (images_of df_val);
    model ← ext (DefineModel (decoder config) (encoder config) (num_classes config)
                   (encoder_weights config) (device config));
    ext (ZeroGrad model);;
    ext (EvalMode model);;
    path ← lift (str_add log_folder
                   (decoder config +:+ "_" +:+ encoder config +:+ "_" +:+ pretty i +:+ ".pt"));
    ext (LoadModelWeights model path);;
    new ← validate_inf params model config val_images log_folder use_full_size
            global_threshold use_tta save;
    ret (scores ++ new)
  else ret scores.

Definition k_fold_inf (params : Params) (config : Config) (df : DataFrame)
    (log_folder : option string) (use_full_size : bool) (global_threshold : option float)
    (use_tta save : bool) : M (list float) :=
  col ← lift (getitem df (cv_column config));
  let folds := unique cell_same col in
  for_in (enumerate folds)
    (k_fold_inf_step params config df log_folder use_full_size global_threshold
       use_tta save (length folds)) [].

End Inference.

(** * Runs and what can be read off their traces *)

Definition events {A} (out : list event * heap * result A) : list event := out.1.1.
Definition store {A} (out : list event * heap * result A) : heap := out.1.2.
Definition outcome {A} (out : list event * heap * result A) : result A := out.2.

(** An observer reads the trace from left to right, keeping a state. A
    weakest precondition for a computation and an observer: whatever the
    libraries answer, the result, the observer's final state and the
    final store satisfy [Φ]. *)
Definition observe {S} (step : S → event → S) (s : S) (evs : list event) : S :=
  foldl step s evs.

Definition wp {S} (step : S → event → S) {A} (m : M A)
    (Φ : result A → S → heap → Prop) (s : S) (hp : heap) : Prop :=
  ∀ env h,
    Φ (outcome (m env h hp)) (observe step s (events (m env h hp)))
      (store (m env h hp)).

(** A computation all of whose events are of one kind. *)
Definition only (Q : event → bool) {A} (m : M A) : Prop :=
  ∀ env h hp, forallb Q (events (m env h hp)) = true.

(** The events of [Training.validate]. *)
Definition validation_event (e : event) : bool :=
  match e with
  | Ev (ReadCsv _) _ | Ev (HEPreprocess _ _) _ | Ev (MakeInferenceDataset _ _ _ _ _ _) _
  | Ev (PredictEntireMaskNoThresholding _ _ _ _) _ | Ev (PlotThreshScores _ _ _) _
  | Ev (NpSave _ _) _ | Ev (Print MsgValidating) _ | Ev (Print (MsgScored _ _ _)) _ => true
  | _ => false
  end.

(** ** A small world to run the code in

    Two patients, three tiles; every library call succeeds. The tuner
    answers with the thresholds of [tuned_answers], one after the other. *)

Definition demo_params : Params :=
  {| REDUCE_FACTOR := 4; SIZE := 256; TILE_SIZE := 256;
     TIFF_PATH := "tiff"; TIFF_PATH_4 := "tiff_4"; DATA_PATH := "data/" |}.

Definition demo_config (selected : list Z) : Config :=
  {| seed := 2021; decoder := "Unet"; encoder := "resnet34"; num_classes := 1;
     encoder_weights := "imagenet"; device := "cuda"; img_dir := "img";
     mask_dir := "mask"; optimizer := "Adam"; loss := "BCE"; activation := "sigmoid";
     epochs := 2; batch_size := 8; val_bs := 16; lr := 0.001; warmup_prop := 0.05;
     swa_first_epoch := 50; verbose := 1; first_epoch_eval := 0; save_weights := true;
     cv_column := "fold"; selected_folds := selected; overlap_factor := 1.5;
     reduce_factor := 4 |}.

Definition demo_row (k fold : Z) (tile : string) : Row :=
  {| label := k; cells := {[ "fold" := CInt fold; "tile_name" := CStr tile ]} |}.

Definition demo_df : DataFrame :=
  {| columns := ["fold"; "tile_name"];
     rows := [demo_row 0 0 "a_1"; demo_row 1 1 "b_1"; demo_row 2 0 "a_2"] |}.

Definition demo_table_row (k : Z) (img : string) : Row :=
  {| label := k;
     cells := {[ "id" := CStr img; "encoding" := CStr "1 2";
                 "image_file" := CStr (img +:+ ".tiff");
                 "width_pixels" := CInt 100; "height_pixels" := CInt 80 ]} |}.

Definition demo_table : DataFrame :=
  {| columns := ["id"; "encoding"; "image_file"; "width_pixels"; "height_pixels"];
     rows := [demo_table_row 0 "a"; demo_table_row 1 "b"] |}.

Definition is_tuning (e : event) : bool :=
  match e with
  | Ev (TweakThreshold _ _) _ | Ev (PlotThreshScores _ _ _) _ => true
  | _ => false
  end.

Definition tuned_answers : list float := [0.3%float; 0.5%float].

Definition next_threshold (h : list event) : float :=
  nth (length (List.filter is_tuning h)) tuned_answers 0.5%float.

Definition is_fit (e : event) : bool :=
  match e with
  | Ev (Fit _ _ _ _) _ => true
  | _ => false
  end.

(** The dice values of the history of a training: the first training
    ends at 0.7, the later ones at 0.8. *)
Definition demo_dice (h : list event) : list float :=
  [0.5%float; if Nat.eqb (length (List.filter is_fit h)) 0 then 0.7%float else 0.8%float].

Definition cell_int (c : Cell) : Z :=
  match c with CInt z => z | _ => 0%Z end.

Definition demo_env : Env := λ A h c,
  match c in call A return result A with
  | SeedEverything _ => Ok ()
  | DefineModel _ _ _ _ _ => Ok {| model_id := length h |}
  | ZeroGrad _ => Ok ()
  | EvalMode _ => Ok ()
  | HEPreprocess _ _ => Ok {| transforms_id := length h |}
  | TileDataset df _ _ _ => Ok {| dataset_id := length h; dataset_len := length (rows df) |}
  | CountParameters _ => Ok 1000%Z
  | Fit _ _ _ _ =>
      Ok ({| meter_id := length h; pred_mask := {| tensor_id := length h |} |},
          {| history_id := length h; dice := demo_dice h |})
  | SaveModelWeights _ _ _ => Ok ()
  | SaveAsJit _ _ _ _ => Ok ()
  | LoadModelWeights _ _ => Ok ()
  | ReadCsv _ => Ok demo_table
  | MakeInferenceDataset _ _ _ _ _ _ =>
      Ok {| inference_id := length h; mask := {| tensor_id := length h |} |}
  | PredictEntireMaskNoThresholding _ _ _ _ => Ok {| tensor_id := length h |}
  | PredictEntireMask _ _ _ _ => Ok {| tensor_id := length h |}
  | PredictEntireMaskDownscaled _ _ _ _ => Ok {| tensor_id := length h |}
  | PlotThreshScores _ _ _ => Ok (next_threshold h, 0.9%float)
  | TweakThreshold _ _ => Ok (next_threshold h, 0.9%float)
  | FromNumpyCuda _ => Ok {| tensor_id := length h |}
  | CpuNumpy _ => Ok {| tensor_id := length h |}
  | AsTypeInt values => Ok (map (λ wh, (cell_int wh.1, cell_int wh.2)) values)
  | Enc2Mask _ _ => Ok {| tensor_id := length h |}
  | ThresholdResizeTorch _ _ _ => Ok {| tensor_id := length h |}
  | GreaterThan _ _ => Ok {| tensor_id := length h |}
  | DiceScoresImg _ _ => Ok 0.9%float
  | NpSave _ _ => Ok ()
  | HistoryToCsv _ _ => Ok ()
  | NpMean _ => Ok 0.5%float
  | NpStd _ => Ok 0.1%float
  | EmptyCache => Ok ()
  | GcCollect => Ok ()
  | Print _ => Ok ()
  | DelModel _ => Ok ()
  | DelMeter _ => Ok ()
  end.

(** The same world, but the library call number [k] fails. *)
Definition failing_env (k : nat) : Env := λ A h c,
  if Nat.eqb (length h) k then Raise (LibraryError "out of memory") else demo_env A h c.

(** ** Observers *)

(** The frames handed to [TileDataset], in order. *)
Definition dataset_frames (s : list DataFrame) (e : event) : list DataFrame :=
  match e with
  | Ev (TileDataset df _ _ _) _ => s ++ [df]
  | _ => s
  end.



(** The folds whose header line was printed, by index, in order. *)
Definition fold_headers (s : list nat) (e : event) : list nat :=
  match e with
  | Ev (Print (MsgFold k _)) _ => s ++ [k - 1]
  | _ => s
  end.

Definition is_selected (config : Config) (i : nat) : bool :=
  bool_decide (Z.of_nat i ∈ selected_folds config).


(** The number of folds of the frame. *)
Definition fold_count (config : Config) (df : DataFrame) : nat :=
  match getitem df (cv_column config) with
  | Ok col => length (unique cell_same col)
  | Raise _ => 0
  end.

(** The selected fold indices that exist, in ascending order. *)
Definition selected_indices (config : Config) (df : DataFrame) : list nat :=
  List.filter (is_selected config) (seq 0 (fold_count config df)).

(** The events of [Inference.validate_inf]. *)
Definition inference_event (e : event) : bool :=
  match e with
  | Ev (ReadCsv _) _ | Ev (HEPreprocess _ _) _ | Ev (MakeInferenceDataset _ _ _ _ _ _) _
  | Ev (PredictEntireMask _ _ _ _) _ | Ev (PredictEntireMaskDownscaled _ _ _ _) _
  | Ev (FromNumpyCuda _) _ | Ev (TweakThreshold _ _) _ | Ev (AsTypeInt _) _
  | Ev (Enc2Mask _ _) _ | Ev (CpuNumpy _) _ | Ev (NpSave _ _) _
  | Ev (ThresholdResizeTorch _ _ _) _ | Ev (GreaterThan _ _) _ | Ev (DiceScoresImg _ _) _
  | Ev (Print MsgValidating) _ | Ev (Print (MsgScored _ _ _)) _
  | Ev (Print (MsgScoredDownscaled _ _ _)) _ => true
  | _ => false
  end.

(** The last [dice] value of each history that [fit] returned, in order. *)
Definition final_scores (s : list float) (e : event) : list float :=
  match e with
  | Ev (Fit _ _ _ _) (Ok mh) =>
      match last (dice mh.2) with
      | Some f => s ++ [f]
      | None => s
      end
  | _ => s
  end.

(** Two observers side by side. *)
Definition both {S1 S2} (f1 : S1 → event → S1) (f2 : S2 → event → S2)
    (s : S1 * S2) (e : event) : S1 * S2 :=
  (f1 s.1 e, f2 s.2 e).


(** What [k_fold] does once the loop over the folds has ended. *)
Definition k_fold_end (out : list float * option Meter) : M (option Meter) :=
  match out.2 with
  | Some meter => ret (Some meter)
  | None =>
      mean ← ext (NpMean out.1);
      std ← ext (NpStd out.1);
      emit (Print (MsgAverage mean std));;
      ret None
  end.

Inductive model_state :=
| NoModel
| Live (m : Model)
| Deleted
| Clash.

Definition model_eqb (a b : Model) : bool := Nat.eqb (model_id a) (model_id b).

(** A model is constructed only when none exists and the cache has been
    emptied since the last one was deleted; anything else is a [Clash]. *)
Definition model_protocol (s : model_state) (e : event) : model_state :=
  match e with
  | Ev (DefineModel _ _ _ _ _) (Ok m) =>
      match s with
      | NoModel => Live m
      | _ => Clash
      end
  | Ev (DelModel m) _ =>
      match s with
      | Live m' => if model_eqb m m' then Deleted else Clash
      | _ => Clash
      end
  | Ev EmptyCache (Ok _) =>
      match s with
      | Deleted => NoModel
      | _ => s
      end
  | _ => s
  end.

Definition at_rest (s : model_state) : bool :=
  match s with NoModel => true | _ => false end.

Definition no_clash (s : model_state) : bool :=
  match s with Clash => false | _ => true end.






(** The thresholds the predictions were binarized at, in order. *)
Definition binarized (s : list float) (e : event) : list float :=
  match e with
  | Ev (ThresholdResizeTorch _ _ t) _ | Ev (GreaterThan _ t) _ => s ++ [t]
  | _ => s
  end.


(** The thresholds the tuner of [validate_inf] returned, in order. *)
Definition tuned (s : list float) (e : event) : list float :=
  match e with
  | Ev (TweakThreshold _ _) (Ok ts) => s ++ [ts.1]
  | _ => s
  end.

(** The threshold [validate_inf] binarizes at, given its argument and
    what the tuner returned so far: the argument, or else the threshold
    tuned for the first image. *)
Definition threshold_in_use (global_threshold : option float) (ts : list float)
    : option float :=
  match global_threshold with
  | Some g => Some g
  | None => head ts
  end.

(** An observer that looks at nothing. *)
Definition blind (s : unit) (e : event) : unit := s.

(** ** Observers for the rest of the code *)

(** The calls that write a file. *)
Definition is_write (e : event) : bool :=
  match e with
  | Ev (NpSave _ _) _ | Ev (HistoryToCsv _ _) _ | Ev (SaveModelWeights _ _ _) _
  | Ev (SaveAsJit _ _ _ _) _ => true
  | _ => false
  end.

(** The number of events of one kind. *)
Definition count (Q : event → bool) (s : nat) (e : event) : nat :=
  if Q e then S s else s.

(** Loading weights, and everything [validate_inf] calls. *)
Definition is_load_or_inference (e : event) : bool :=
  match e with
  | Ev (LoadModelWeights _ _) _ => true
  | _ => inference_event e
  end.

(** What [validate_inf] does with a prediction: moving it to the host,
    saving, binarizing and scoring it. *)
Definition uses_prediction (e : event) : bool :=
  match e with
  | Ev (CpuNumpy _) _ | Ev (NpSave _ _) _ | Ev (ThresholdResizeTorch _ _ _) _
  | Ev (GreaterThan _ _) _ | Ev (DiceScoresImg _ _) _ => true
  | _ => false
  end.

(** [f"{config.decoder}_{config.encoder}_{fold}.pt"] *)
Definition weights_name (config : Config) (fold : nat) : string :=
  decoder config +:+ "_" +:+ encoder config +:+ "_" +:+ pretty fold +:+ ".pt".

Definition is_jit (e : event) : bool :=
  match e with
  | Ev (SaveAsJit _ _ _ _) _ => true
  | _ => false
  end.

(** The weights that were saved, by name and folder, in order. *)
Definition saved_weights (s : list (string * string)) (e : event) : list (string * string) :=
  match e with
  | Ev (SaveModelWeights _ name folder) _ => s ++ [(name, folder)]
  | _ => s
  end.

(** The paths weights were loaded from, in order. *)
Definition loaded_weights (s : list string) (e : event) : list string :=
  match e with
  | Ev (LoadModelWeights _ path) _ => s ++ [path]
  | _ => s
  end.

(** The thresholds [plot_thresh_scores] returned, as Python values, in
    order. *)
Definition plotted (s : list pyval) (e : event) : list pyval :=
  match e with
  | Ev (PlotThreshScores _ _ _) (Ok ts) => s ++ [PFloat ts.1]
  | _ => s
  end.

(** The scores [dice_scores_img] returned, in order. *)
Definition dice_results (s : list float) (e : event) : list float :=
  match e with
  | Ev (DiceScoresImg _ _) (Ok f) => s ++ [f]
  | _ => s
  end.

(** A row without a patient: its cv value is NaN. *)
Definition demo_nan_row : Row :=
  {| label := 3; cells := {[ "fold" := CFloat nan; "tile_name" := CStr "c_1" ]} |}.

Definition demo_nan_df : DataFrame :=
  {| columns := ["fold"; "tile_name"]; rows := [demo_row 0 0 "a_1"; demo_nan_row] |}.

(** A call that writes a file writes it under [folder]. *)
Definition writes_under (folder : string) (e : event) : bool :=
  match e with
  | Ev (NpSave path _) _ | Ev (HistoryToCsv _ path) _ => is_prefix folder path
  | Ev (SaveModelWeights _ _ cp_folder) _ => is_prefix folder cp_folder
  | Ev (SaveAsJit _ jit_folder _ _) _ => is_prefix folder jit_folder
  | _ => true
  end.

(** A call of a validation on the images downscaled by four: the table
    of their encodings, an image of their folder read as it is, a
    prediction that is not scaled up. *)
Definition downscaled_validation (params : Params) (config : Config) (e : event) : bool :=
  match e with
  | Ev (ReadCsv path) _ => String.eqb path (DATA_PATH params +:+ "train_4.csv")
  | Ev (MakeInferenceDataset path _ _ reduce tile_size _) _ =>
      is_prefix (TIFF_PATH_4 params) path && Z.eqb reduce 1 &&
      (if tile_size is None then true else false)
  | Ev (PredictEntireMaskNoThresholding _ _ bs upscale) _ =>
      negb upscale && Z.eqb bs (val_bs config `div` 4)
  | Ev (PredictEntireMask _ _ _ _) _ | Ev (PredictEntireMaskDownscaled _ _ _ _) _ => false
  | _ => true
  end.

(** * Proofs *)

(** ** Rules of the weakest precondition *)

Lemma run_bind {A B} (m : M A) (k : A → M B) env h hp :
  (m ≫= k) env h hp =
  match m env h hp with
  | (evs1, hp1, Ok a) =>
      match k a env (h ++ evs1) hp1 with
      | (evs2, hp2, r) => (evs1 ++ evs2, hp2, r)
      end
  | (evs1, hp1, Raise e) => (evs1, hp1, Raise e)
  end.
Proof. reflexivity. Qed.

Section Observers.
Context {S : Type} (step : S → event → S).

Lemma observe_app s evs1 evs2 :
  observe step s (evs1 ++ evs2) = observe step (observe step s evs1) evs2.
Proof. apply foldl_app. Qed.

Lemma wp_ret {A} (a : A) Φ s hp : Φ (Ok a) s hp → wp step (mret a) Φ s hp.
Proof. intros H env h. exact H. Qed.

Lemma wp_lift {A} (r : result A) Φ s hp : Φ r s hp → wp step (lift r) Φ s hp.
Proof. intros H env h. exact H. Qed.

Lemma wp_ext {A} (c : call A) Φ s hp :
  (∀ r, Φ r (step s (Ev c r)) hp) → wp step (ext c) Φ s hp.
Proof. intros H env h. apply H. Qed.

Lemma wp_emit (c : call unit) Φ s hp :
  Φ (Ok ()) (step s (Ev c (Ok ()))) hp → wp step (emit c) Φ s hp.
Proof. intros H env h. exact H. Qed.

Lemma wp_new_list Φ s hp :
  Φ (Ok (length hp)) s (hp ++ [[]]) → wp step new_list Φ s hp.
Proof. intros H env h. exact H. Qed.

Lemma wp_list_append l v Φ s hp :
  Φ (Ok ()) s (alter (λ xs, xs ++ [v]) l hp) → wp step (list_append l v) Φ s hp.
Proof. intros H env h. exact H. Qed.

Lemma wp_bind {A B} (m : M A) (k : A → M B) Φ s hp :
  wp step m (λ r s1 hp1,
          match r with
          | Ok a => wp step (k a) Φ s1 hp1
          | Raise e => Φ (Raise e) s1 hp1
          end) s hp →
  wp step (m ≫= k) Φ s hp.
Proof.
  intros H env h. specialize (H env h). rewrite run_bind.
  destruct (m env h hp) as [[evs1 hp1] [a|e]]; cbn -[observe] in H |- *; [|exact H].
  specialize (H env (h ++ evs1)).
  destruct (k a env (h ++ evs1) hp1) as [[evs2 hp2] r]; cbn -[observe] in H |- *.
  unfold events; cbn -[observe]. rewrite observe_app. exact H.
Qed.

Lemma wp_mono {A} (m : M A) (Φ Ψ : result A → S → heap → Prop) s hp :
  wp step m Φ s hp → (∀ r s' hp', Φ r s' hp' → Ψ r s' hp') → wp step m Ψ s hp.
Proof. intros H HΦ env h. apply HΦ, H. Qed.

(** The loop rule: [Inv] holds of the items still to visit, the local
    variables, the observer and the store. *)
Lemma wp_for_each {X L R} (body : X → L → M (L * option R))
    (Inv : list X → L → S → heap → Prop) (Φ : result (L * option R) → S → heap → Prop) :
  (∀ x xs l s hp, Inv (x :: xs) l s hp →
     wp step (body x l) (λ r s' hp',
       match r with
       | Ok (l', None) => Inv xs l' s' hp'
       | Ok (l', Some v) => Φ (Ok (l', Some v)) s' hp'
       | Raise e => Φ (Raise e) s' hp'
       end) s hp) →
  (∀ l s hp, Inv [] l s hp → Φ (Ok (l, None)) s hp) →
  ∀ xs l s hp, Inv xs l s hp → wp step (for_each xs body l) Φ s hp.
Proof.
  intros Hbody Hend xs. induction xs as [|x xs IH]; intros l s hp HI.
  - apply wp_ret. by apply Hend.
  - cbn [for_each]. apply (wp_bind (body x l)).
    eapply wp_mono; [by apply Hbody|].
    intros [[l' [v|]]|e] s' hp' H; cbn; [by apply wp_ret|by apply IH|done].
Qed.

Lemma wp_for_in {X L} (body : X → L → M L)
    (Inv : list X → L → S → heap → Prop) (Φ : result L → S → heap → Prop) :
  (∀ x xs l s hp, Inv (x :: xs) l s hp →
     wp step (body x l) (λ r s' hp',
       match r with
       | Ok l' => Inv xs l' s' hp'
       | Raise e => Φ (Raise e) s' hp'
       end) s hp) →
  (∀ l s hp, Inv [] l s hp → Φ (Ok l) s hp) →
  ∀ xs l s hp, Inv xs l s hp → wp step (for_in xs body l) Φ s hp.
Proof.
  intros Hbody Hend xs l s hp HI. unfold for_in. apply wp_bind.
  apply (wp_for_each _ Inv); [| |done].
  - intros x xs' l' s' hp' HI'. apply wp_bind.
    eapply wp_mono; [by apply Hbody|].
    intros [l''|e] s'' hp'' H; cbn; [by apply wp_ret|done].
  - intros l' s' hp' HI'. apply wp_ret. by apply Hend.
Qed.

(** Reading a [wp] at one run. *)
Lemma wp_run {A} (m : M A) Φ s hp env h :
  wp step m Φ s hp →
  Φ (outcome (m env h hp)) (observe step s (events (m env h hp))) (store (m env h hp)).
Proof. intros H. apply H. Qed.
End Observers.

Section Only.
Context (Q : event → bool).

Lemma only_ret {A} (a : A) : only Q (mret a).
Proof. by intros env h hp. Qed.

Lemma only_lift {A} (r : result A) : only Q (lift r).
Proof. by intros env h hp. Qed.

Lemma only_new_list : only Q new_list.
Proof. by intros env h hp. Qed.

Lemma only_list_append l v : only Q (list_append l v).
Proof. by intros env h hp. Qed.

Lemma only_ext {A} (c : call A) : (∀ r, Q (Ev c r) = true) → only Q (ext c).
Proof. intros H env h hp. cbn. by rewrite H. Qed.

Lemma only_emit (c : call unit) : Q (Ev c (Ok ())) = true → only Q (emit c).
Proof. intros H env h hp. cbn. by rewrite H. Qed.

Lemma only_bind {A B} (m : M A) (k : A → M B) :
  only Q m → (∀ a, only Q (k a)) → only Q (m ≫= k).
Proof.
  intros Hm Hk env h hp. rewrite run_bind. specialize (Hm env h hp).
  destruct (m env h hp) as [[evs1 hp1] [a|e]]; cbn in Hm |- *; [|done].
  specialize (Hk a env (h ++ evs1) hp1).
  destruct (k a env (h ++ evs1) hp1) as [[evs2 hp2] r]; cbn in Hk |- *.
  unfold events; cbn. rewrite forallb_app. by rewrite Hm, Hk.
Qed.

Lemma only_for_each {X L R} (body : X → L → M (L * option R)) xs l :
  (∀ x l, only Q (body x l)) → only Q (for_each xs body l).
Proof.
  intros Hbody. revert l. induction xs as [|x xs IH]; intros l; cbn [for_each].
  - apply only_ret.
  - apply (only_bind (body x l)); [done|].
    intros [l' [v|]]; cbn; [apply only_ret|apply IH].
Qed.

Lemma only_for_in {X L} (body : X → L → M L) xs l :
  (∀ x l, only Q (body x l)) → only Q (for_in xs body l).
Proof.
  intros Hbody. apply only_bind; [|intros; apply only_ret].
  apply only_for_each. intros x l'. apply only_bind; [done|intros; apply only_ret].
Qed.

(** Events an observer does not look at leave its state as it was. *)
Lemma wp_only {S} (step : S → event → S) {A} (m : M A) Φ s hp :
  only Q m →
  (∀ e s', Q e = true → step s' e = s') →
  (∀ r hp', Φ r s hp') →
  wp step m Φ s hp.
Proof.
  intros Hm Hstep HΦ env h. specialize (Hm env h hp).
  assert (observe step s (events (m env h hp)) = s) as ->; [|apply HΦ].
  revert Hm. generalize (events (m env h hp)). intros evs.
  induction evs as [|e evs IH]; cbn; [done|].
  intros [He Hevs]%andb_prop. rewrite Hstep by done. by apply IH.
Qed.
End Only.

Ltac only_go :=
  repeat first
    [ apply only_ret | apply only_lift | apply only_new_list | apply only_list_append
    | apply only_emit; reflexivity
    | apply only_ext; intros; reflexivity
    | apply only_for_in; intros
    | apply only_for_each; intros
    | apply only_bind; [|intros]
    | match goal with
      | |- only _ (if ?b then _ else _) => destruct b
      | |- only _ (match ?x with _ => _ end) => destruct x
      end ].

Lemma validate_only params model config val_images log_folder use_full_size :
  only validation_event
    (Training.validate params model config val_images log_folder use_full_size).
Proof. unfold Training.validate, Training.validate_image. only_go. Qed.

(** ** Splitting the frame by fold *)


Lemma elem_of_select_mask {A} (p : A → bool) (xs : list A) (x : A) :
  x ∈ select_mask xs (map p xs) ↔ x ∈ xs ∧ p x = true.
Proof.
  induction xs as [|y xs IH]; cbn.
  - split; [by intros ?%elem_of_nil|by intros [?%elem_of_nil _]].
  - destruct (p y) eqn:Hy; rewrite ?elem_of_cons, IH.
    + split; [intros [->|[? ?]]; auto|intros [[->|?] ?]; auto].
    + split; [intros [? ?]; auto|intros [[->|?] ?]; [congruence|auto]].
Qed.

Lemma where_eq_rows df column value df' :
  where_eq df column value = Ok df' →
  columns df' = columns df ∧
  rows df' = select_mask (rows df) (map (λ r, cell_eq (row_get column r) value) (rows df)).
Proof.
  unfold where_eq, getitem. case_bool_decide; [|done].
  intros [= <-]. cbn. by rewrite map_map.
Qed.

Lemma where_ne_rows df column value df' :
  where_ne df column value = Ok df' →
  columns df' = columns df ∧
  rows df' =
    select_mask (rows df) (map (λ r, negb (cell_eq (row_get column r) value)) (rows df)).
Proof.
  unfold where_ne, getitem. case_bool_decide; [|done].
  intros [= <-]. cbn. by rewrite map_map.
Qed.

(** An observer that does not look at the events of some kind. *)
Ltac unseen :=
  let c := fresh "c" in
  let s := fresh "s" in
  intros [? c ?] s ?; try (destruct s as [? ?]; []); destruct c; try done;
  match goal with m : message |- _ => by destruct m end.


Ltac wp_go :=
  repeat (cbn beta iota;
    lazymatch goal with
    | |- wp _ (mbind _ _) _ _ _ => apply wp_bind
    | |- wp _ (ext _) _ _ _ => apply wp_ext; intros [?|?]
    | |- wp _ (emit _) _ _ _ => apply wp_emit
    | |- wp _ (mret _) _ _ _ => apply wp_ret
    | |- wp _ (ret _) _ _ _ => apply wp_ret
    | |- wp _ (lift _) _ _ _ => apply wp_lift
    | |- wp _ new_list _ _ _ => apply wp_new_list
    | |- wp _ (list_append _ _) _ _ _ => apply wp_list_append
    | |- match ?r with Ok _ => _ | Raise _ => _ end => destruct r eqn:?
    | |- wp _ (if ?b then _ else _) _ _ _ => destruct b eqn:?
    | |- wp _ (match ?x with _ => _ end) _ _ _ => destruct x eqn:?
    end).



(** ** Which folds are processed *)

Lemma enumerate_from_fst {A} k (xs : list A) :
  map fst (enumerate_from k xs) = seq k (length xs).
Proof. revert k. induction xs as [|x xs IH]; intros k; cbn; [done|]. by rewrite IH. Qed.

Lemma validate_inf_only params model config val_images log_folder full thr tta save :
  only inference_event
    (Inference.validate_inf params model config val_images log_folder full thr tta save).
Proof.
  unfold Inference.validate_inf, Inference.validate_inf_image, Inference.shape_of.
  only_go.
Qed.




Lemma k_fold_inf_step_headers params config df log_folder full thr tta save n i fold
    scores s hp :
  wp fold_headers
    (Inference.k_fold_inf_step params config df log_folder full thr tta save n
       (i, fold) scores)
    (λ _ s' _, s' = s ++ (if is_selected config i then [i] else [])) s hp.
Proof.
  unfold Inference.k_fold_inf_step, is_selected. cbn [fst snd].
  case_bool_decide as Hsel; [|apply wp_ret; by rewrite app_nil_r].
  apply wp_bind, wp_emit. cbn. rewrite Nat.add_sub.
  wp_go; cbn; auto.
  all: apply wp_only with (Q := inference_event);
    [apply validate_inf_only | unseen | intros; wp_go; cbn; auto].
Qed.

Lemma k_fold_inf_headers params config df log_folder full thr tta save hp :
  wp fold_headers (Inference.k_fold_inf params config df log_folder full thr tta save)
    (λ r s _,
       match r with
       | Ok _ => s = selected_indices config df
       | Raise _ => s `prefix_of` selected_indices config df
       end) [] hp.
Proof.
  unfold Inference.k_fold_inf, selected_indices, fold_count.
  apply wp_bind, wp_lift. destruct (getitem _ _) as [col|]; [|done].
  unfold enumerate. rewrite <- (enumerate_from_fst 0 (unique cell_same col)).
  set (target := List.filter _ (map fst _)).
  apply (wp_for_in fold_headers _
           (λ rest _ s _, s ++ List.filter (is_selected config) (map fst rest) = target));
    [| |done].
  - intros [i fold] rest l s hp' Hs.
    eapply wp_mono; [apply k_fold_inf_step_headers|].
    cbn [map fst List.filter] in Hs.
    intros [l'|e] s' hp'' ->.
    + destruct (is_selected config i); [by rewrite <- app_assoc|by rewrite app_nil_r].
    + destruct (is_selected config i).
      * exists (List.filter (is_selected config) (map fst rest)). by rewrite <- app_assoc.
      * rewrite app_nil_r. by eexists.
  - intros l s hp' Hs. cbn in Hs. by rewrite app_nil_r in Hs.
Qed.






(** ** The scores collected in [cvs] *)

Lemma observe_both {S1 S2} (f1 : S1 → event → S1) (f2 : S2 → event → S2) s1 s2 evs :
  observe (both f1 f2) (s1, s2) evs = (observe f1 s1 evs, observe f2 s2 evs).
Proof. revert s1 s2. induction evs as [|e evs IH]; intros s1 s2; cbn; [done|apply IH]. Qed.

Lemma last_item_Ok {A} (xs : list A) (x : A) : last_item xs = Ok x → last xs = Some x.
Proof. unfold last_item. destruct (last xs); naive_solver. Qed.

Lemma k_fold_step_scores params config df log_folder n i fold cvs hs fs hp :
  wp (both fold_headers final_scores)
    (Training.k_fold_step params config df log_folder n (i, fold) cvs)
    (λ r s' _,
       match r with
       | Ok (cvs', _) =>
           (cvs' = cvs ∧ s' = (hs, fs)) ∨
           (∃ f, cvs' = cvs ++ [f] ∧ s' = (hs ++ [i], fs ++ [f]))
       | Raise _ => True
       end) (hs, fs) hp.
Proof.
  unfold Training.k_fold_step. cbn [fst snd].
  case_bool_decide as Hsel; [|apply wp_ret; by left].
  apply wp_bind, wp_emit. unfold both; cbn. rewrite Nat.add_sub.
  unfold Training.train. wp_go; unfold both; cbn; auto.
  all: apply wp_only with (Q := validation_event);
    [apply validate_only | unseen | intros; wp_go; unfold both; cbn; auto].
  all: right; cbn in *;
    match goal with H : last_item _ = Ok ?f |- _ =>
      apply last_item_Ok in H; rewrite H; by exists f
    end.
Qed.

Lemma k_fold_loop_scores params config df log_folder folds hp :
  wp (both fold_headers final_scores)
    (Training.k_fold_loop params config df log_folder folds [])
    (λ r s _,
       match r with
       | Ok (cvs, _) => cvs = s.2 ∧ length cvs = length s.1
       | Raise _ => True
       end) ([], []) hp.
Proof.
  unfold Training.k_fold_loop.
  apply (wp_for_each (both fold_headers final_scores) _
           (λ _ cvs s _, cvs = s.2 ∧ length cvs = length s.1)); [| |done].
  - intros [i fold] rest cvs [hs fs] hp' [-> Hlen]. cbn in Hlen.
    eapply wp_mono; [apply k_fold_step_scores|].
    intros [[cvs' [v|]]|e] s' hp''; cbn beta iota; [| |done].
    all: intros [[-> ->]|(f & -> & ->)]; cbn; rewrite ?length_app; cbn; auto.
  - by intros cvs [hs fs] hp' [-> Hlen].
Qed.

(** C9. Every fold that [k_fold] processes adds one element to [cvs],
    the last [dice] value of the history its training returned: when the
    loop over the folds ends, [cvs] holds these values in processing
    order, one for each processed fold. *)
Theorem k_fold_collects_final_scores params config df log_folder folds env h hp cvs ret :
  outcome (Training.k_fold_loop params config df log_folder folds [] env h hp)
    = Ok (cvs, ret) →
  let evs := events (Training.k_fold_loop params config df log_folder folds [] env h hp) in
  cvs = observe final_scores [] evs ∧
  length cvs = length (observe fold_headers [] evs).
Proof.
  intros Hr evs.
  pose proof (wp_run _ _ _ _ _ env h
    (k_fold_loop_scores params config df log_folder folds hp)) as H.
  fold evs in H. cbn beta in H. rewrite Hr, observe_both in H. exact H.
Qed.

Lemma k_fold_collects_final_scores_witness :
  let run :=
    Training.k_fold_loop demo_params (demo_config [0; 1]%Z) demo_df (Some "log/")
      [CInt 0; CInt 1] [] demo_env [] [] in
  outcome run = Ok ([0.7%float; 0.8%float], None) ∧
  ([0.7%float; 0.8%float] = observe final_scores [] (events run) ∧
   length [0.7%float; 0.8%float] = length (observe fold_headers [] (events run))).
Proof.
  split; [vm_compute; reflexivity|].
  apply (k_fold_collects_final_scores demo_params (demo_config [0; 1]%Z) demo_df
           (Some "log/") [CInt 0; CInt 1] demo_env [] [] _ None).
  vm_compute. reflexivity.
Defined.

(** ** The report at the end of [k_fold] *)

Lemma k_fold_run params config df log_folder env h hp col :
  getitem df (cv_column config) = Ok col →
  Training.k_fold params config df log_folder env h hp =
  match Training.k_fold_loop params config df log_folder (unique cell_same col) [] env h hp with
  | (evs, hp', Ok out) =>
      match k_fold_end out env (h ++ evs) hp' with
      | (evs', hp'', r) => (evs ++ evs', hp'', r)
      end
  | (evs, hp', Raise e) => (evs, hp', Raise e)
  end.
Proof.
  intros Hcol. unfold Training.k_fold. rewrite run_bind. unfold lift at 1.
  rewrite Hcol. rewrite app_nil_r. rewrite run_bind. fold k_fold_end.
  destruct (Training.k_fold_loop _ _ _ _ _ _ _ _ _) as [[evs hp'] [out|e]];
    [|reflexivity].
  fold (k_fold_end out). destruct (k_fold_end out env (h ++ evs) hp') as [[evs' hp''] r].
  reflexivity.
Qed.

Lemma k_fold_end_report cvs env h hp r :
  outcome (k_fold_end (cvs, None) env h hp) = Ok r →
  r = None ∧
  ∃ mean std,
    events (k_fold_end (cvs, None) env h hp) =
      [Ev (NpMean cvs) (Ok mean); Ev (NpStd cvs) (Ok std);
       Ev (Print (MsgAverage mean std)) (Ok ())].
Proof.
  unfold k_fold_end. cbn [snd fst]. rewrite !run_bind. unfold ext. cbn.
  destruct (env float h (NpMean cvs)) as [mean|e]; [|done].
  rewrite !run_bind. cbn.
  destruct (env float _ (NpStd cvs)) as [std|e]; [|done].
  rewrite !run_bind. cbn. intros [= <-]. split; [done|]. by exists mean, std.
Qed.


Lemma filter_nothing {A} (Q : A → bool) (xs : list A) :
  forallb (λ x, negb (Q x)) xs = true → List.filter Q xs = [].
Proof.
  induction xs as [|x xs IH]; cbn; [done|].
  intros [Hx Hxs]%andb_prop. destruct (Q x); [done|by apply IH].
Qed.




(** ** The models that exist during [k_fold] *)

Lemma model_eqb_refl m : model_eqb m m = true.
Proof. apply Nat.eqb_refl. Qed.

Lemma k_fold_step_models params config df log_folder n ifold cvs hp :
  wp model_protocol (Training.k_fold_step params config df log_folder n ifold cvs)
    (λ r s _,
       match r with
       | Ok _ => s = NoModel
       | Raise _ => no_clash s = true
       end) NoModel hp.
Proof.
  unfold Training.k_fold_step.
  case_bool_decide as Hsel; [|by apply wp_ret].
  unfold Training.train. wp_go; cbn; auto.
  all: apply wp_only with (Q := validation_event);
    [apply validate_only | unseen | intros; wp_go; cbn; rewrite ?model_eqb_refl; auto].
Qed.

(** C7. In every run of [k_fold], a model is constructed only when no
    other model exists: the model of a fold has been deleted and the
    accelerator cache emptied before the next one is constructed. A run
    that does not raise leaves no model behind. *)
Theorem k_fold_one_model_at_a_time params config df log_folder env h hp :
  let run := Training.k_fold params config df log_folder env h hp in
  no_clash (observe model_protocol NoModel (events run)) = true ∧
  (is_ok (outcome run) = true →
   at_rest (observe model_protocol NoModel (events run)) = true).
Proof.
  intros run.
  enough (match outcome run with
          | Ok _ => observe model_protocol NoModel (events run) = NoModel
          | Raise _ => no_clash (observe model_protocol NoModel (events run)) = true
          end) as H.
  { destruct (outcome run); [by rewrite H|done]. }
  apply (wp_run model_protocol _
    (λ r s _, match r with Ok _ => s = NoModel | Raise _ => no_clash s = true end)).
  unfold Training.k_fold, Training.k_fold_loop.
  apply wp_bind, wp_lift. destruct (getitem _ _) as [col|]; [|done].
  apply wp_bind.
  apply (wp_for_each model_protocol _ (λ _ _ s _, s = NoModel)); [| |done].
  - intros x xs l s hp' ->. eapply wp_mono; [by apply k_fold_step_models|].
    intros [[? [?|]]|] ? ? ?; cbn; [apply wp_ret|..]; done.
  - intros l s hp' ->. wp_go; cbn; auto.
Qed.

(** ** Errors *)




















(** ** Thresholds in [validate_inf] *)



Lemma threshold_in_use_snoc gt ts t :
  threshold_in_use gt (ts ++ [t]) = Some (default t (threshold_in_use gt ts)).
Proof. destruct gt as [g|]; cbn; [done|]. by destruct ts. Qed.

Lemma validate_inf_image_downscaled params model config log_folder tta save
    df_info rles rles_full img scores g ts bs hp :
  wp (both tuned binarized)
    (Inference.validate_inf_image params model config log_folder false tta save
       df_info rles rles_full img (scores, g))
    (λ r s' _,
       match r with
       | Ok locals =>
           ∃ t, locals.2 = Some (default t g) ∧ s' = (ts ++ [t], bs ++ [default t g])
       | Raise _ =>
           s' = (ts, bs) ∨
           ∃ t, s' = (ts ++ [t], bs) ∨ s' = (ts ++ [t], bs ++ [default t g])
       end) (ts, bs) hp.
Proof.
  unfold Inference.validate_inf_image, Inference.shape_of. cbn.
  wp_go; unfold both; cbn; eauto.
  all: destruct g; cbn; eauto.
Qed.

(** Whatever the images, all predictions of one call of [validate_inf]
    on downscaled images are binarized at one threshold: the argument
    [global_threshold], or else the threshold tuned for the first image. *)
Lemma validate_inf_downscaled_thresholds params model config val_images log_folder gt
    tta save env h hp :
  let run :=
    Inference.validate_inf params model config val_images log_folder false gt tta save
      env h hp in
  Forall (λ b, Some b = threshold_in_use gt (observe tuned [] (events run)))
    (observe binarized [] (events run)).
Proof.
  intros run.
  enough (let s := observe (both tuned binarized) ([], []) (events run) in
          Forall (λ b, Some b = threshold_in_use gt s.1) s.2) as H.
  { by rewrite observe_both in H. }
  apply (wp_run (both tuned binarized) _
    (λ _ s _, Forall (λ b, Some b = threshold_in_use gt s.1) s.2)).
  unfold Inference.validate_inf. cbn.
  wp_go; unfold both; cbn; try done.
  apply (wp_for_in (both tuned binarized) _
    (λ _ locals s _,
       locals.2 = threshold_in_use gt s.1 ∧
       Forall (λ b, Some b = threshold_in_use gt s.1) s.2)).
  - intros img rest [scores g] [ts bs] hp' [Hg Hbs]. cbn in Hg, Hbs.
    assert (∀ t, Forall (λ b, Some b = threshold_in_use gt (ts ++ [t])) bs) as Hkeep.
    { intros t. eapply Forall_impl; [exact Hbs|]. intros b Hb. cbn beta in Hb.
      by rewrite threshold_in_use_snoc, <- Hb. }
    eapply wp_mono; [apply validate_inf_image_downscaled|].
    intros [locals|e] s' hp''; cbn beta iota.
    + intros (t & Hl & ->). cbn. rewrite threshold_in_use_snoc, <- Hg. split; [done|].
      apply Forall_app. split; [|by repeat constructor].
      specialize (Hkeep t). by rewrite threshold_in_use_snoc, <- Hg in Hkeep.
    + intros [->|(t & [->| ->])]; cbn; [done|apply Hkeep|].
      apply Forall_app. split; [apply Hkeep|].
      rewrite threshold_in_use_snoc, <- Hg. by repeat constructor.
  - intros locals s hp' [_ Hbs]. by wp_go.
  - split; [by destruct gt|done].
Qed.

(** C1 on the code. Two images whose tuned thresholds are 0.3 and 0.5,
    no [global_threshold]: both are binarized at 0.3, the threshold of
    the first image. *)
Theorem validate_inf_second_image_threshold :
  let run :=
    Inference.validate_inf demo_params {| model_id := 0 |} (demo_config []) ["a"; "b"]
      None false None false false demo_env [] [] in
  is_ok (outcome run) = true ∧
  observe tuned [] (events run) = [0.3%float; 0.5%float] ∧
  observe binarized [] (events run) = [0.3%float; 0.3%float].
Proof. vm_compute. done. Qed.

(** ** The lists of [validate] *)

Lemma append_both (hp : heap) (a b : list pyval) (u v : pyval) :
  alter (λ xs, xs ++ [u]) (length hp)
    (alter (λ xs, xs ++ [v]) (length (hp ++ [[]])) (hp ++ [a; b]))
  = hp ++ [a ++ [u]; b ++ [v]].
Proof.
  rewrite length_app. cbn [length].
  rewrite alter_app_r. cbn.
  rewrite <- (Nat.add_0_r (length hp)) at 1.
  by rewrite alter_app_r.
Qed.

Lemma validate_image_store params model config log_folder full rles img
    (hp0 : heap) (a b : list pyval) s :
  wp blind
    (Training.validate_image params model config log_folder full rles
       (length hp0) (length (hp0 ++ [[]])) img)
    (λ r _ hp',
       match r with
       | Ok _ => ∃ t, hp' = hp0 ++ [a ++ [PList (length hp0)]; b ++ [PFloat t]]
       | Raise _ => True
       end) s (hp0 ++ [a; b]).
Proof.
  unfold Training.validate_image.
  wp_go; try done.
  all: rewrite append_both; by eexists.
Qed.

(** C2 on the code. What [validate] appends to [scores] for each image
    is the list [scores] itself: after [n] images the returned list holds
    [n] references to itself and no score. *)
Theorem validate_scores_hold_the_list params model config val_images log_folder full
    env h hp scores thresholds :
  outcome (Training.validate params model config val_images log_folder full env h hp)
    = Ok (scores, thresholds) →
  store (Training.validate params model config val_images log_folder full env h hp)
    !! scores = Some (replicate (length val_images) (PList scores)).
Proof.
  intros Hr.
  pose proof (wp_run blind (Training.validate params model config val_images log_folder full)
    (λ r _ hp',
       match r with
       | Ok st => hp' !! st.1 = Some (replicate (length val_images) (PList st.1))
       | Raise _ => True
       end) () hp env h) as H.
  cbn beta in H. rewrite Hr in H. apply H. clear H Hr.
  unfold Training.validate.
  apply wp_bind, wp_ext. intros [rles|e]; [|done].
  apply wp_bind, wp_emit. apply wp_bind, wp_new_list. apply wp_bind, wp_new_list.
  apply wp_bind.
  apply (wp_for_in blind _
    (λ rest _ _ hp',
       ∃ k b, hp' = hp ++ [replicate k (PList (length hp)); b] ∧
              k + length rest = length val_images)).
  - intros img rest [] s hp' (k & b & -> & Hk). cbn in Hk.
    eapply wp_mono; [apply validate_image_store|].
    intros [[]|e] s' hp''; cbn beta iota; [|done].
    intros (t & ->). exists (S k), (b ++ [PFloat t]).
    rewrite replicate_S_end. split; [done|lia].
  - intros [] s hp' (k & b & -> & Hk). cbn in Hk. apply wp_ret. cbn [fst].
    rewrite Nat.add_0_r in Hk. subst k.
    by apply list_lookup_middle.
  - exists 0, []. split; [|done]. by rewrite <- app_assoc.
Qed.

Lemma validate_scores_hold_the_list_witness :
  let run :=
    Training.validate demo_params {| model_id := 0 |} (demo_config []) ["a"; "b"] None false
      demo_env [] [] in
  outcome run = Ok (0, 1) ∧ store run !! 0 = Some [PList 0; PList 0].
Proof.
  split; [vm_compute; reflexivity|].
  apply (validate_scores_hold_the_list demo_params {| model_id := 0 |} (demo_config [])
           ["a"; "b"] None false demo_env [] [] 0 1).
  vm_compute. reflexivity.
Defined.

(** ** The code at work in the small world *)

(** The frames of a run with two folds, by the labels their rows had in
    the input frame: train and validation of fold 0, then of fold 1. *)
Example demo_dataset_frames :
  map (λ f, map (λ r, cell_int (row_get "index" r)) (rows f))
    (observe dataset_frames []
       (events (Training.k_fold demo_params (demo_config [0; 1]%Z) demo_df (Some "log/")
                  demo_env [] [])))
  = [[1]; [0; 2]; [0; 2]; [1]]%Z.
Proof. vm_compute. done. Qed.

(** When [fit] fails in the first fold, [k_fold] raises what it raised,
    and the second fold is never started. *)
Example demo_fit_fails :
  let run :=
    Training.k_fold demo_params (demo_config [0; 1]%Z) demo_df (Some "log/")
      (failing_env 12) [] [] in
  outcome run = Raise (LibraryError "out of memory") ∧
  last (events run) =
    Some (Ev (Fit {| model_id := 2 |} {| dataset_id := 5; dataset_len := 1 |}
                {| dataset_id := 7; dataset_len := 2 |} (demo_config [0; 1]%Z))
            (Raise (LibraryError "out of memory"))) ∧
  observe fold_headers [] (events run) = [0].
Proof. vm_compute. done. Qed.

(** [k_fold_inf] never deletes a model: with two folds, the second model
    is constructed while the first still exists. *)
Example demo_k_fold_inf_models :
  observe model_protocol NoModel
    (events (Inference.k_fold_inf demo_params (demo_config [0; 1]%Z) demo_df (Some "log/")
               false None false false demo_env [] []))
  = Clash ∧
  observe model_protocol NoModel
    (events (Training.k_fold demo_params (demo_config [0; 1]%Z) demo_df (Some "log/")
               demo_env [] []))
  = NoModel.
Proof. vm_compute. done. Qed.

(** With a [global_threshold], every image is binarized at it. *)
Example demo_global_threshold :
  observe binarized []
    (events (Inference.validate_inf demo_params {| model_id := 0 |} (demo_config [])
               ["a"; "b"] None false (Some 0.45%float) false false demo_env [] []))
  = [0.45%float; 0.45%float].
Proof. vm_compute. done. Qed.

(** * The rest of the code *)

(** ** Edge cases of the loops over the folds *)

Ltac only_run :=
  repeat (cbn beta iota; first
    [ apply only_ret | apply only_lift | apply only_new_list | apply only_list_append
    | apply only_emit; reflexivity
    | apply only_ext; intros; reflexivity
    | apply only_for_in; intros
    | apply only_for_each; intros
    | apply only_bind; [|intros]
    | match goal with
      | |- only _ (if ?b then _ else _) => destruct b
      | |- only _ (match ?x with _ => _ end) => destruct x
      end ]).

(** When the frame has no column [config.cv_column], [k_fold] and
    [k_fold_inf] raise [KeyError] before they call anything. *)
Theorem missing_cv_column params config df log_folder full thr tta save env h hp :
  cv_column config ∉ columns df →
  Training.k_fold params config df log_folder env h hp
    = ([], hp, Raise (KeyError (cv_column config))) ∧
  Inference.k_fold_inf params config df log_folder full thr tta save env h hp
    = ([], hp, Raise (KeyError (cv_column config))).
Proof.
  intros Hcol.
  assert (getitem df (cv_column config) = Raise (KeyError (cv_column config))) as Hget.
  { unfold getitem. by rewrite bool_decide_eq_false_2. }
  split.
  - unfold Training.k_fold. rewrite run_bind. unfold lift. by rewrite Hget.
  - unfold Inference.k_fold_inf. rewrite run_bind. unfold lift. by rewrite Hget.
Qed.

Lemma missing_cv_column_witness :
  Training.k_fold demo_params (demo_config [0]%Z) demo_table None demo_env [] []
    = ([], [], Raise (KeyError "fold")) ∧
  Inference.k_fold_inf demo_params (demo_config [0]%Z) demo_table None true None false false
    demo_env [] []
    = ([], [], Raise (KeyError "fold")).
Proof.
  apply (missing_cv_column demo_params (demo_config [0]%Z) demo_table None true None
           false false demo_env [] []).
  vm_compute. intros H. by repeat (apply elem_of_cons in H as [H|H]; [done|]);
    apply elem_of_nil in H.
Defined.

Lemma filter_nil_all {A} (f : A → bool) (xs : list A) :
  List.filter f xs = [] → ∀ x, In x xs → f x = false.
Proof.
  induction xs as [|y xs IH]; cbn; [done|].
  destruct (f y) eqn:Hy; [done|]. intros Hxs x [<-|Hx]; [done|by apply IH].
Qed.

Lemma k_fold_loop_nothing_selected params config df log_folder n xs cvs env h hp :
  (∀ i, In i (map fst xs) → is_selected config i = false) →
  for_each xs (Training.k_fold_step params config df log_folder n) cvs env h hp
    = ([], hp, Ok (cvs, None)).
Proof.
  revert h. induction xs as [|[i fold] xs IH]; intros h Hsel; [done|].
  cbn [for_each]. unfold bind.
  assert (Training.k_fold_step params config df log_folder n (i, fold) cvs env h hp
            = ([], hp, Ok (cvs, None))) as ->.
  { unfold Training.k_fold_step. cbn [fst]. fold (is_selected config i).
    rewrite Hsel; [done|]. cbn. by left. }
  cbn [snd fst]. rewrite IH; [done|]. intros j Hj. apply Hsel. cbn. by right.
Qed.

(** When no selected index is the index of a fold (an empty selection,
    for one), a run of [k_fold] that does not raise trains nothing: it
    only computes and prints the mean and the standard deviation of the
    empty list. *)
Theorem k_fold_nothing_selected params config df log_folder env h hp r :
  selected_indices config df = [] →
  outcome (Training.k_fold params config df log_folder env h hp) = Ok r →
  r = None ∧
  ∃ mean std,
    events (Training.k_fold params config df log_folder env h hp) =
      [Ev (NpMean []) (Ok mean); Ev (NpStd []) (Ok std);
       Ev (Print (MsgAverage mean std)) (Ok ())].
Proof.
  unfold selected_indices, fold_count. intros Hsel.
  destruct (getitem df (cv_column config)) as [col|e] eqn:Hcol.
  2: { unfold Training.k_fold. rewrite run_bind. unfold lift. by rewrite Hcol. }
  rewrite (k_fold_run _ _ _ _ _ _ _ _ Hcol). unfold Training.k_fold_loop.
  rewrite k_fold_loop_nothing_selected.
  2: { unfold enumerate. rewrite enumerate_from_fst. by apply filter_nil_all. }
  rewrite app_nil_r.
  pose proof (k_fold_end_report [] env h hp) as Hend.
  destruct (k_fold_end ([], None) env h hp) as [[evs' hp''] r'].
  cbn in Hend |- *. intros Hr. destruct (Hend r Hr) as (-> & mean & std & ->).
  split; [done|]. by exists mean, std.
Qed.

Lemma k_fold_nothing_selected_witness :
  let run := Training.k_fold demo_params (demo_config []) demo_df None demo_env [] [] in
  outcome run = Ok None ∧
  ∃ mean std,
    events run =
      [Ev (NpMean []) (Ok mean); Ev (NpStd []) (Ok std);
       Ev (Print (MsgAverage mean std)) (Ok ())].
Proof.
  split; [vm_compute; reflexivity|].
  apply (k_fold_nothing_selected demo_params (demo_config []) demo_df None demo_env [] []
           None); vm_compute; reflexivity.
Defined.

(** Without a log folder [k_fold] writes no file: no weights, no
    traced model, no prediction and no history. *)
Theorem k_fold_without_log_folder_writes_nothing params config df env h hp :
  List.filter is_write (events (Training.k_fold params config df None env h hp)) = [].
Proof.
  apply filter_nothing.
  assert (only (λ e, negb (is_write e)) (Training.k_fold params config df None)) as H;
    [|apply H].
  unfold Training.k_fold, Training.k_fold_loop, Training.k_fold_step, Training.train,
    Training.validate, Training.validate_image.
  only_run.
Qed.

(** Without [save], [validate_inf] and [k_fold_inf] write no file. *)
Theorem inference_without_save_writes_nothing params model config df val_images log_folder
    full thr tta env h hp :
  List.filter is_write
    (events (Inference.validate_inf params model config val_images log_folder full thr tta
               false env h hp)) = [] ∧
  List.filter is_write
    (events (Inference.k_fold_inf params config df log_folder full thr tta false env h hp))
    = [].
Proof.
  split; apply filter_nothing.
  - assert (only (λ e, negb (is_write e))
              (Inference.validate_inf params model config val_images log_folder full thr
                 tta false)) as H; [|apply H].
    unfold Inference.validate_inf, Inference.validate_inf_image, Inference.shape_of.
    only_run.
  - assert (only (λ e, negb (is_write e))
              (Inference.k_fold_inf params config df log_folder full thr tta false)) as H;
      [|apply H].
    unfold Inference.k_fold_inf, Inference.k_fold_inf_step, Inference.validate_inf,
      Inference.validate_inf_image, Inference.shape_of.
    only_run.
Qed.

(** ** A log folder that is [None] where a path is built from it *)

Lemma k_fold_inf_step_no_folder params config df full thr tta save n i fold scores s hp :
  wp (count is_load_or_inference)
    (Inference.k_fold_inf_step params config df None full thr tta save n (i, fold) scores)
    (λ r s' _, s' = s ∧ (is_ok r = true → is_selected config i = false)) s hp.
Proof.
  unfold Inference.k_fold_inf_step, is_selected. cbn [fst snd].
  case_bool_decide as Hsel; [|by apply wp_ret].
  wp_go; cbn in *; try done.
Qed.

(** [k_fold_inf] builds the path of the weights from [log_folder]: with
    [log_folder] left at [None] it never loads weights and never
    validates, and it raises as soon as there is a selected fold. *)
Theorem k_fold_inf_needs_log_folder params config df full thr tta save env h hp :
  let run := Inference.k_fold_inf params config df None full thr tta save env h hp in
  observe (count is_load_or_inference) 0 (events run) = 0 ∧
  (selected_indices config df ≠ [] → is_ok (outcome run) = false).
Proof.
  intros run.
  apply (wp_run (count is_load_or_inference) _
    (λ r s _, s = 0 ∧ (selected_indices config df ≠ [] → is_ok r = false))).
  unfold Inference.k_fold_inf, selected_indices, fold_count.
  apply wp_bind, wp_lift. destruct (getitem _ _) as [col|]; [|done].
  unfold enumerate. rewrite <- (enumerate_from_fst 0 (unique cell_same col)).
  set (target := List.filter _ (map fst _)).
  apply (wp_for_in (count is_load_or_inference) _
    (λ rest _ s _, s = 0 ∧ List.filter (is_selected config) (map fst rest) = target));
    [| |done].
  - intros [i fold] rest l s hp' [-> Hs].
    eapply wp_mono; [apply k_fold_inf_step_no_folder|].
    cbn [map fst List.filter] in Hs.
    intros [l'|e] s' hp'' [-> Hsel]; [|done].
    split; [done|]. by rewrite Hsel in Hs.
  - intros l s hp' [-> Hs]. cbn in Hs. split; [done|]. by rewrite <- Hs.
Qed.

Lemma validate_inf_image_no_folder params model config full tta df_info rles rles_full
    img locals s hp :
  wp (count uses_prediction)
    (Inference.validate_inf_image params model config None full tta true
       df_info rles rles_full img locals)
    (λ r s' _, s' = s ∧ is_ok r = false) s hp.
Proof.
  unfold Inference.validate_inf_image, Inference.shape_of.
  wp_go; cbn in *; try done.
Qed.

(** [validate_inf] builds the path of a saved prediction from
    [log_folder]: with [save] and no log folder, no prediction is ever
    saved, binarized or scored, and the call raises at the first image. *)
Theorem validate_inf_save_needs_log_folder params model config val_images full thr tta
    env h hp :
  let run :=
    Inference.validate_inf params model config val_images None full thr tta true env h hp in
  observe (count uses_prediction) 0 (events run) = 0 ∧
  (val_images ≠ [] → is_ok (outcome run) = false).
Proof.
  intros run.
  apply (wp_run (count uses_prediction) _
    (λ r s _, s = 0 ∧ (val_images ≠ [] → is_ok r = false))).
  unfold Inference.validate_inf.
  wp_go; cbn; try done.
  apply (wp_for_in (count uses_prediction) _ (λ rest _ s _, s = 0 ∧ rest = val_images));
    [| |done].
  - intros img rest l s hp' [-> Hrest].
    eapply wp_mono; [apply validate_inf_image_no_folder|].
    by intros [l'|e] s' hp'' [-> Hok].
  - intros l s hp' [-> <-]. by wp_go.
Qed.

(** ** The weights of a fold *)

Lemma is_prefix_app p s t : is_prefix p s = true → is_prefix p (s +:+ t) = true.
Proof.
  revert s. induction p as [|a p IH]; intros s; [done|].
  destruct s as [|b s]; [done|].
  change (String b s +:+ t) with (String b (s +:+ t)). cbn.
  intros [Hab Hp]%andb_prop. rewrite Hab. cbn. by apply IH.
Qed.

Lemma contains_app_l p s t : contains p s = true → contains p (s +:+ t) = true.
Proof.
  induction s as [|c s IH].
  - cbn. rewrite orb_false_r. destruct p; [|done]. intros _.
    change ("" +:+ t) with t. by destruct t.
  - change (String c s +:+ t) with (String c (s +:+ t)). cbn [contains].
    intros [Hp|Hs]%orb_prop.
    + apply (is_prefix_app _ _ t) in Hp.
      change (String c s +:+ t) with (String c (s +:+ t)) in Hp. by rewrite Hp.
    + rewrite IH by done. apply orb_true_r.
Qed.

Lemma contains_app_r p s t : contains p s = true → contains p (t +:+ s) = true.
Proof.
  intros Hs. induction t as [|c t IH]; [done|].
  change (String c t +:+ s) with (String c (t +:+ s)). cbn [contains].
  rewrite IH. apply orb_true_r.
Qed.

Lemma weights_name_contains p config fold :
  contains p (decoder config) = true ∨ contains p (encoder config) = true →
  contains p (weights_name config fold) = true.
Proof.
  unfold weights_name. intros [H|H].
  - by apply contains_app_l.
  - by apply contains_app_r, contains_app_r, contains_app_l.
Qed.

Lemma count_filter (Q : event → bool) (n : nat) (evs : list event) :
  observe (count Q) n evs = (n + length (List.filter Q evs))%nat.
Proof.
  revert n. induction evs as [|e evs IH]; intros n; [cbn; lia|].
  change (observe (count Q) n (e :: evs)) with (observe (count Q) (count Q n e) evs).
  rewrite IH. unfold count. cbn [List.filter]. destruct (Q e); cbn; lia.
Qed.

Lemma count_zero (Q : event → bool) (evs : list event) :
  observe (count Q) 0 evs = 0 → List.filter Q evs = [].
Proof. rewrite count_filter. cbn. by intros ?%length_zero_iff_nil. Qed.

(** A model whose decoder or encoder name contains "efficientnet" is
    never traced by [train]: [save_as_jit] is not called. *)
Theorem train_never_traces_efficientnet params config df_train df_val fold log_folder
    env h hp :
  contains "efficientnet" (decoder config) = true ∨
  contains "efficientnet" (encoder config) = true →
  List.filter is_jit
    (events (Training.train params config df_train df_val fold log_folder env h hp)) = [].
Proof.
  intros Hname%(weights_name_contains _ _ fold). unfold weights_name in Hname.
  apply count_zero.
  apply (wp_run (count is_jit) _ (λ _ s _, s = 0)).
  unfold Training.train. wp_go; cbn; try done.
  all: rewrite Hname in *; discriminate.
Qed.

Lemma train_never_traces_efficientnet_witness :
  List.filter is_jit
    (events (Training.train demo_params
               {| seed := 0; decoder := "Unet"; encoder := "efficientnet-b5";
                  num_classes := 1; encoder_weights := "imagenet"; device := "cuda";
                  img_dir := "img"; mask_dir := "mask"; optimizer := "Adam"; loss := "BCE";
                  activation := "sigmoid"; epochs := 2; batch_size := 8; val_bs := 16;
                  lr := 0.001; warmup_prop := 0.05; swa_first_epoch := 50; verbose := 1;
                  first_epoch_eval := 0; save_weights := true; cv_column := "fold";
                  selected_folds := []; overlap_factor := 1.5; reduce_factor := 4 |}
               demo_df demo_df 0 (Some "log/") demo_env [] [])) = [].
Proof.
  apply train_never_traces_efficientnet. right. vm_compute. reflexivity.
Defined.

Lemma k_fold_step_saves params config df folder n i fold cvs hs ws hp :
  save_weights config = true →
  wp (both fold_headers saved_weights)
    (Training.k_fold_step params config df (Some folder) n (i, fold) cvs)
    (λ r s' _,
       match r with
       | Ok _ => s' = (hs, ws) ∨ s' = (hs ++ [i], ws ++ [(weights_name config i, folder)])
       | Raise _ => True
       end) (hs, ws) hp.
Proof.
  intros Hsave. unfold Training.k_fold_step. cbn [fst snd].
  case_bool_decide as Hsel; [|apply wp_ret; by left].
  apply wp_bind, wp_emit. unfold both; cbn. rewrite Nat.add_sub.
  unfold Training.train. rewrite Hsave. wp_go; unfold both; cbn; auto.
  all: apply wp_only with (Q := validation_event);
    [apply validate_only | unseen | intros; wp_go; unfold both; cbn; auto].
Qed.

(** With [config.save_weights] and a log folder, a run of [k_fold] that
    does not raise has saved the weights of every fold it processed, in
    order, in the log folder and under the name made of the decoder, the
    encoder and the index of the fold. *)
Theorem k_fold_saves_weights params config df folder env h hp r :
  save_weights config = true →
  outcome (Training.k_fold params config df (Some folder) env h hp) = Ok r →
  observe saved_weights [] (events (Training.k_fold params config df (Some folder) env h hp))
  = map (λ i, (weights_name config i, folder))
      (observe fold_headers []
         (events (Training.k_fold params config df (Some folder) env h hp))).
Proof.
  intros Hsave Hr.
  pose proof (wp_run (both fold_headers saved_weights)
    (Training.k_fold params config df (Some folder))
    (λ r s _, is_ok r = true → s.2 = map (λ i, (weights_name config i, folder)) s.1)
    ([], []) hp env h) as H.
  rewrite observe_both, Hr in H. apply H; [|done]. clear H Hr.
  unfold Training.k_fold, Training.k_fold_loop.
  apply wp_bind, wp_lift. destruct (getitem _ _) as [col|]; [|done].
  apply wp_bind.
  apply (wp_for_each (both fold_headers saved_weights) _
    (λ _ _ s _, s.2 = map (λ i, (weights_name config i, folder)) s.1)); [| |done].
  - intros [i fold] rest l [hs ws] hp' Hs. cbn in Hs.
    eapply wp_mono; [by apply k_fold_step_saves|].
    assert ((hs ++ [i], ws ++ [(weights_name config i, folder)]).2
            = map (λ i, (weights_name config i, folder))
                (hs ++ [i], ws ++ [(weights_name config i, folder)]).1) as Hs'.
    { cbn. by rewrite map_app, Hs. }
    intros [[l' [v|]]|e] s' hp''; cbn beta iota; [| |done].
    + intros [->| ->]; apply wp_ret; intros _; done.
    + by intros [->| ->].
  - intros l [hs ws] hp' Hs. wp_go; unfold both; cbn; done.
Qed.

Lemma k_fold_saves_weights_witness :
  let run :=
    Training.k_fold demo_params (demo_config [0; 1]%Z) demo_df (Some "log/") demo_env [] [] in
  observe saved_weights [] (events run)
  = [("Unet_resnet34_0.pt", "log/"); ("Unet_resnet34_1.pt", "log/")].
Proof.
  etrans.
  - apply (k_fold_saves_weights demo_params (demo_config [0; 1]%Z) demo_df "log/"
             demo_env [] [] None); vm_compute; reflexivity.
  - vm_compute. reflexivity.
Defined.

Lemma k_fold_inf_step_loads params config df folder full thr tta save n i fold scores
    hs ls hp :
  wp (both fold_headers loaded_weights)
    (Inference.k_fold_inf_step params config df (Some folder) full thr tta save n
       (i, fold) scores)
    (λ r s' _,
       match r with
       | Ok _ => s' = (hs ++ (if is_selected config i then [i] else []),
                       ls ++ (if is_selected config i
                              then [folder +:+ weights_name config i] else []))
       | Raise _ => True
       end) (hs, ls) hp.
Proof.
  unfold Inference.k_fold_inf_step, is_selected. cbn [fst snd].
  case_bool_decide as Hsel; [|apply wp_ret; by rewrite !app_nil_r].
  apply wp_bind, wp_emit. unfold both; cbn. rewrite Nat.add_sub.
  wp_go; unfold both; cbn; auto.
  all: apply wp_only with (Q := inference_event);
    [apply validate_inf_only | unseen | intros; wp_go; unfold both; cbn in *; auto].
  all: match goal with H : Ok _ = Ok _ |- _ => by injection H as <- end.
Qed.

(** Given a log folder, a run of [k_fold_inf] that does not raise has
    loaded, for every selected fold in order, the weights at the path
    made of the log folder and the name under which [train] saves the
    weights of that fold. *)
Theorem k_fold_inf_loads_weights params config df folder full thr tta save env h hp r :
  outcome (Inference.k_fold_inf params config df (Some folder) full thr tta save env h hp)
    = Ok r →
  observe loaded_weights []
    (events (Inference.k_fold_inf params config df (Some folder) full thr tta save env h hp))
  = map (λ i, folder +:+ weights_name config i) (selected_indices config df).
Proof.
  intros Hr.
  pose proof (wp_run _ _ _ _ _ env h
    (k_fold_inf_headers params config df (Some folder) full thr tta save hp)) as Hh.
  cbn beta in Hh. rewrite Hr in Hh. rewrite <- Hh.
  pose proof (wp_run (both fold_headers loaded_weights)
    (Inference.k_fold_inf params config df (Some folder) full thr tta save)
    (λ r s _, is_ok r = true → s.2 = map (λ i, folder +:+ weights_name config i) s.1)
    ([], []) hp env h) as H.
  rewrite observe_both, Hr in H. apply H; [|done]. clear H Hr Hh.
  unfold Inference.k_fold_inf.
  apply wp_bind, wp_lift. destruct (getitem _ _) as [col|]; [|done].
  apply (wp_for_in (both fold_headers loaded_weights) _
    (λ _ _ s _, s.2 = map (λ i, folder +:+ weights_name config i) s.1)); [| |done].
  - intros [i fold] rest l [hs ls] hp' Hs. cbn in Hs.
    eapply wp_mono; [apply k_fold_inf_step_loads|].
    intros [l'|e] s' hp''; cbn beta iota; [|done].
    intros ->. cbn. destruct (is_selected config i).
    + by rewrite map_app, Hs.
    + by rewrite !app_nil_r.
  - by intros l [hs ls] hp' Hs _.
Qed.

Lemma k_fold_inf_loads_weights_witness :
  let run :=
    Inference.k_fold_inf demo_params (demo_config [0; 1]%Z) demo_df (Some "log/") false None
      false false demo_env [] [] in
  observe loaded_weights [] (events run)
  = ["log/Unet_resnet34_0.pt"; "log/Unet_resnet34_1.pt"].
Proof.
  etrans.
  - apply (k_fold_inf_loads_weights demo_params (demo_config [0; 1]%Z) demo_df "log/" false
             None false false demo_env [] [] [0.9%float; 0.9%float]).
    vm_compute. reflexivity.
  - vm_compute. reflexivity.
Defined.

(** ** What the validations return *)

Lemma validate_image_thresholds params model config log_folder full rles img
    (hp0 : heap) (a b : list pyval) s :
  wp plotted
    (Training.validate_image params model config log_folder full rles
       (length hp0) (length (hp0 ++ [[]])) img)
    (λ r s' hp',
       match r with
       | Ok _ =>
           ∃ t, hp' = hp0 ++ [a ++ [PList (length hp0)]; b ++ [PFloat t]] ∧
                s' = s ++ [PFloat t]
       | Raise _ => True
       end) s (hp0 ++ [a; b]).
Proof.
  unfold Training.validate_image.
  wp_go; try done.
  all: rewrite append_both; by eexists.
Qed.

(** The list [thresholds] that [validate] returns holds, in the order of
    the images, the thresholds that [plot_thresh_scores] returned, one for
    each image, and it is not the list [scores]. *)
Theorem validate_returns_thresholds params model config val_images log_folder full
    env h hp scores thresholds :
  outcome (Training.validate params model config val_images log_folder full env h hp)
    = Ok (scores, thresholds) →
  let run := Training.validate params model config val_images log_folder full env h hp in
  store run !! thresholds = Some (observe plotted [] (events run)) ∧
  length (observe plotted [] (events run)) = length val_images ∧
  scores ≠ thresholds.
Proof.
  intros Hr run.
  pose proof (wp_run plotted (Training.validate params model config val_images log_folder full)
    (λ r s hp',
       match r with
       | Ok st => hp' !! st.2 = Some s ∧ length s = length val_images ∧ st.1 ≠ st.2
       | Raise _ => True
       end) [] hp env h) as H.
  fold run in H. cbn beta in H. unfold run in H at 1. rewrite Hr in H. apply H. clear.
  unfold Training.validate.
  apply wp_bind, wp_ext. intros [rles|e]; [|done].
  apply wp_bind, wp_emit. apply wp_bind, wp_new_list. apply wp_bind, wp_new_list.
  apply wp_bind.
  apply (wp_for_in plotted _
    (λ rest _ s hp',
       ∃ a, hp' = hp ++ [a; s] ∧ length s + length rest = length val_images)).
  - intros img rest [] s hp' (a & -> & Hk). cbn in Hk.
    eapply wp_mono; [apply validate_image_thresholds|].
    intros [[]|e] s' hp''; cbn beta iota; [|done].
    intros (t & -> & ->). eexists. split; [done|]. rewrite length_app. cbn. lia.
  - intros [] s hp' (a & -> & Hk). cbn in Hk. apply wp_ret. cbn [fst snd].
    rewrite length_app. cbn [length]. split; [|split]; [|lia|lia].
    rewrite (lookup_app_r hp [a; s]) by lia.
    by replace (length hp + 1 - length hp) with 1 by lia.
  - exists []. split; [|done]. by rewrite <- app_assoc.
Qed.

Lemma validate_returns_thresholds_witness :
  let run :=
    Training.validate demo_params {| model_id := 0 |} (demo_config []) ["a"; "b"] None false
      demo_env [] [] in
  outcome run = Ok (0, 1) ∧
  store run !! 1 = Some [PFloat 0.3%float; PFloat 0.5%float].
Proof.
  split; [vm_compute; reflexivity|].
  etrans.
  - apply (validate_returns_thresholds demo_params {| model_id := 0 |} (demo_config [])
             ["a"; "b"] None false demo_env [] [] 0 1).
    vm_compute. reflexivity.
  - vm_compute. reflexivity.
Defined.

Lemma validate_inf_image_scores params model config log_folder full tta save
    df_info rles rles_full img scores g s hp :
  wp dice_results
    (Inference.validate_inf_image params model config log_folder full tta save
       df_info rles rles_full img (scores, g))
    (λ r s' _,
       match r with
       | Ok locals => ∃ f, locals.1 = scores ++ [f] ∧ s' = s ++ [f]
       | Raise _ => True
       end) s hp.
Proof.
  unfold Inference.validate_inf_image, Inference.shape_of. cbn [fst snd].
  wp_go; cbn; eauto.
Qed.

Lemma validate_inf_scores params model config val_images log_folder full thr tta save s hp :
  wp dice_results
    (Inference.validate_inf params model config val_images log_folder full thr tta save)
    (λ r s' _,
       match r with
       | Ok scores => s' = s ++ scores ∧ length scores = length val_images
       | Raise _ => True
       end) s hp.
Proof.
  unfold Inference.validate_inf.
  wp_go; cbn; try done.
  apply (wp_for_in dice_results _
    (λ rest locals s' _,
       s' = s ++ locals.1 ∧ length locals.1 + length rest = length val_images)).
  - intros img rest [scores g] s' hp' [-> Hlen]. cbn in Hlen.
    eapply wp_mono; [apply validate_inf_image_scores|].
    intros [locals|e] s'' hp''; cbn beta iota; [|done].
    intros (f & Hl & ->). rewrite Hl, length_app, <- app_assoc. cbn. split; [done|lia].
  - intros locals s' hp' [-> Hlen]. cbn in Hlen. wp_go. split; [done|lia].
  - cbn. by rewrite app_nil_r.
Qed.

(** [validate_inf] returns one score for each image, in the order of the
    images: the scores that [dice_scores_img] returned. *)
Theorem validate_inf_returns_scores params model config val_images log_folder full thr
    tta save env h hp scores :
  outcome (Inference.validate_inf params model config val_images log_folder full thr tta
             save env h hp) = Ok scores →
  scores = observe dice_results []
             (events (Inference.validate_inf params model config val_images log_folder
                        full thr tta save env h hp)) ∧
  length scores = length val_images.
Proof.
  intros Hr.
  pose proof (wp_run _ _ _ _ _ env h
    (validate_inf_scores params model config val_images log_folder full thr tta save [] hp))
    as H.
  cbn beta in H. rewrite Hr in H. destruct H as [H Hlen]. by rewrite H.
Qed.

Lemma validate_inf_returns_scores_witness :
  let run :=
    Inference.validate_inf demo_params {| model_id := 0 |} (demo_config []) ["a"; "b"]
      None false None false false demo_env [] [] in
  outcome run = Ok [0.9%float; 0.9%float] ∧
  ([0.9%float; 0.9%float] = observe dice_results [] (events run) ∧
   length [0.9%float; 0.9%float] = 2).
Proof.
  split; [vm_compute; reflexivity|].
  apply (validate_inf_returns_scores demo_params {| model_id := 0 |} (demo_config [])
           ["a"; "b"] None false None false false demo_env [] []).
  vm_compute. reflexivity.
Defined.

Lemma k_fold_inf_step_scores params config df log_folder full thr tta save n ifold
    scores s hp :
  wp dice_results
    (Inference.k_fold_inf_step params config df log_folder full thr tta save n ifold scores)
    (λ r s' _,
       match r with
       | Ok scores' => ∃ new, scores' = scores ++ new ∧ s' = s ++ new
       | Raise _ => True
       end) s hp.
Proof.
  unfold Inference.k_fold_inf_step.
  case_bool_decide as Hsel; [|apply wp_ret; exists []; by rewrite !app_nil_r].
  wp_go; cbn; auto.
  all: eapply wp_mono; [apply validate_inf_scores|].
  all: intros [new|e] s' hp' H; cbn beta iota; [|done].
  all: destruct H as [-> _]; apply wp_ret; by exists new.
Qed.

(** [k_fold_inf] returns the scores of all the images it validated,
    fold after fold and image after image. *)
Theorem k_fold_inf_returns_scores params config df log_folder full thr tta save env h hp
    scores :
  outcome (Inference.k_fold_inf params config df log_folder full thr tta save env h hp)
    = Ok scores →
  scores = observe dice_results []
             (events (Inference.k_fold_inf params config df log_folder full thr tta save
                        env h hp)).
Proof.
  intros Hr.
  pose proof (wp_run dice_results
    (Inference.k_fold_inf params config df log_folder full thr tta save)
    (λ r s _, match r with Ok scores => scores = s | Raise _ => True end) [] hp env h) as H.
  cbn beta in H. rewrite Hr in H. apply H. clear.
  unfold Inference.k_fold_inf.
  apply wp_bind, wp_lift. destruct (getitem _ _) as [col|]; [|done].
  apply (wp_for_in dice_results _ (λ _ scores s _, scores = s)); [| |done].
  - intros ifold rest l s hp' ->.
    eapply wp_mono; [apply k_fold_inf_step_scores|].
    intros [l'|e] s' hp''; cbn beta iota; [|done].
    by intros (new & -> & ->).
  - by intros l s hp' ->.
Qed.

Lemma k_fold_inf_returns_scores_witness :
  let run :=
    Inference.k_fold_inf demo_params (demo_config [0; 1]%Z) demo_df (Some "log/") false None
      false false demo_env [] [] in
  outcome run = Ok [0.9%float; 0.9%float] ∧
  [0.9%float; 0.9%float] = observe dice_results [] (events run).
Proof.
  split; [vm_compute; reflexivity|].
  apply (k_fold_inf_returns_scores demo_params (demo_config [0; 1]%Z) demo_df (Some "log/")
           false None false false demo_env [] []).
  vm_compute. reflexivity.
Defined.

(** ** Comparing the values of the cv column *)

Lemma cell_eq_keys a b :
  cell_eq a b = true ↔ ∃ k, key_of a = Some k ∧ key_of b = Some k.
Proof.
  unfold cell_eq. destruct (key_of a) as [x|], (key_of b) as [y|].
  - rewrite bool_decide_eq_true. split; [intros ->; eauto|].
    by intros (k & [= ->] & [= ->]).
  - split; [done|]. by intros (k & _ & ?).
  - split; [done|]. by intros (k & ? & _).
  - split; [done|]. by intros (k & ? & _).
Qed.

Lemma cell_eq_sym a b : cell_eq a b = true → cell_eq b a = true.
Proof. rewrite !cell_eq_keys. intros (k & ? & ?). eauto. Qed.

Lemma cell_eq_trans c a b : cell_eq c a = true → cell_eq c b = true → cell_eq a b = true.
Proof.
  rewrite !cell_eq_keys. intros (k & Hc & Ha) (k' & Hc' & Hb).
  exists k. split; [done|]. congruence.
Qed.

Lemma cell_eq_same a b : cell_eq a b = true → cell_same a b = true.
Proof.
  rewrite cell_eq_keys. intros (k & Ha & Hb). unfold cell_same.
  apply bool_decide_eq_true. congruence.
Qed.

Lemma cell_same_eq a b : cell_same a b = true → cell_eq a a = true → cell_eq a b = true.
Proof.
  unfold cell_same. rewrite bool_decide_eq_true, !cell_eq_keys.
  intros Hab (k & Ha & _). exists k. split; [done|]. congruence.
Qed.

(** Numbers of different types compare by value, and then are one fold. *)
Example cell_eq_by_value :
  cell_eq (CInt 1) (CFloat 1) = true ∧
  cell_eq (CInt 3) (CFloat 3.5) = false ∧
  cell_eq (CFloat 0) (CFloat (-0)) = true ∧
  cell_eq (CFloat nan) (CFloat nan) = false ∧
  cell_eq (CInt 1) (CStr "1") = false ∧
  unique cell_same [CInt 1; CFloat 1; CInt 2; CFloat nan; CFloat nan]
    = [CInt 1; CInt 2; CFloat nan].
Proof. vm_compute. done. Qed.

Lemma existsb_elem {A} (f : A → bool) (xs : list A) :
  existsb f xs = true ↔ ∃ x, x ∈ xs ∧ f x = true.
Proof.
  rewrite existsb_exists. split; intros (x & Hx & Hf); exists x;
    by rewrite ?list_elem_of_In in *.
Qed.

(** What [unique] keeps: a later value is none of the earlier ones, and
    every value of the column has one that stands for it. *)
Lemma unique_from_later {A} (same : A → A → bool) seen xs i j a b :
  unique_from same seen xs !! i = Some a →
  unique_from same seen xs !! j = Some b →
  i < j →
  same b a = false ∧ ∀ y, y ∈ seen → same a y = false.
Proof.
  revert seen i j. induction xs as [|x xs IH]; intros seen i j; cbn; [done|].
  destruct (existsb (same x) seen) eqn:Hx; [by apply IH|].
  assert (∀ y, y ∈ seen → same x y = false) as Hseen.
  { intros y Hy. destruct (same x y) eqn:Hxy; [|done].
    assert (existsb (same x) seen = true) by (apply existsb_elem; eauto). congruence. }
  destruct i as [|i], j as [|j]; cbn; try lia.
  - intros [= <-] Hb _. split; [|done].
    assert (∀ k seen' b', unique_from same seen' xs !! k = Some b' →
              ∀ y, y ∈ seen' → same b' y = false) as Hall.
    { clear. induction xs as [|x xs IH]; intros k seen' b'; cbn; [done|].
      destruct (existsb (same x) seen') eqn:Hx; [by apply IH|].
      destruct k as [|k]; cbn.
      - intros [= <-] y Hy. destruct (same x y) eqn:Hxy; [|done].
        assert (existsb (same x) seen' = true) by (apply existsb_elem; eauto). congruence.
      - intros Hb y Hy. eapply IH; [done|]. by right. }
    eapply Hall; [done|]. by left.
  - intros Ha Hb Hij. destruct (IH (x :: seen) i j Ha Hb) as [H1 H2]; [lia|].
    split; [done|]. intros y Hy. apply H2. by right.
Qed.

Lemma unique_from_stands {A} (same : A → A → bool) seen xs x :
  x ∈ xs →
  ∃ y, (y ∈ seen ∨ y ∈ unique_from same seen xs) ∧ (y = x ∨ same x y = true).
Proof.
  revert seen. induction xs as [|z xs IH]; intros seen; [by intros ?%elem_of_nil|].
  intros [->|Hx]%elem_of_cons; cbn.
  - destruct (existsb (same z) seen) eqn:Hz.
    + apply existsb_elem in Hz as (y & Hy & Hzy). exists y. auto.
    + exists z. split; [right; by left|by left].
  - destruct (existsb (same z) seen) eqn:Hz; [by apply IH|].
    destruct (IH (z :: seen) Hx) as (y & Hy & Hxy). exists y. split; [|done].
    destruct Hy as [[->|Hy]%elem_of_cons|Hy]; [right; by left|by left|right; by right].
Qed.

Lemma elem_of_where_eq df column value va r :
  where_eq df column value = Ok va →
  r ∈ rows va ↔ r ∈ rows df ∧ cell_eq (row_get column r) value = true.
Proof.
  intros [_ ->]%where_eq_rows.
  apply (elem_of_select_mask (λ r, cell_eq (row_get column r) value)).
Qed.

(** The validation frames of two different folds share no row: a row is
    validated in at most one fold. *)
Theorem validation_folds_disjoint df column col i j f1 f2 va1 va2 r :
  getitem df column = Ok col →
  unique cell_same col !! i = Some f1 →
  unique cell_same col !! j = Some f2 →
  i ≠ j →
  where_eq df column f1 = Ok va1 →
  where_eq df column f2 = Ok va2 →
  r ∈ rows va1 → r ∈ rows va2 → False.
Proof.
  intros _ Hi Hj Hij Hva1 Hva2.
  rewrite (elem_of_where_eq _ _ _ _ _ Hva1), (elem_of_where_eq _ _ _ _ _ Hva2).
  intros [_ H1] [_ H2].
  assert (cell_same f1 f2 = true ∧ cell_same f2 f1 = true) as [H12 H21].
  { split; apply cell_eq_same; eapply cell_eq_trans; eauto. }
  destruct (Nat.lt_total i j) as [Hlt|[->|Hlt]]; [| done |].
  - destruct (unique_from_later cell_same [] col i j f1 f2 Hi Hj Hlt) as [H _]. congruence.
  - destruct (unique_from_later cell_same [] col j i f2 f1 Hj Hi Hlt) as [H _]. congruence.
Qed.

Lemma validation_folds_disjoint_witness :
  unique cell_same [CInt 0; CInt 1; CInt 0] !! 0 = Some (CInt 0) ∧
  unique cell_same [CInt 0; CInt 1; CInt 0] !! 1 = Some (CInt 1) ∧
  (demo_row 1 1 "b_1" ∈ [demo_row 0 0 "a_1"; demo_row 2 0 "a_2"] → False).
Proof.
  split; [reflexivity|]. split; [reflexivity|].
  intros H.
  apply (validation_folds_disjoint demo_df "fold" [CInt 0; CInt 1; CInt 0] 0 1
           (CInt 0) (CInt 1)
           {| columns := ["fold"; "tile_name"];
              rows := [demo_row 0 0 "a_1"; demo_row 2 0 "a_2"] |}
           {| columns := ["fold"; "tile_name"]; rows := [demo_row 1 1 "b_1"] |}
           (demo_row 1 1 "b_1"));
    [vm_compute; reflexivity | reflexivity | reflexivity | lia
    | vm_compute; reflexivity | vm_compute; reflexivity | exact H | by left].
Defined.

(** A row whose cv value equals itself (any value but NaN) is in the
    validation frame of one of the folds. *)
Theorem validation_folds_cover df column col r :
  getitem df column = Ok col →
  r ∈ rows df →
  cell_eq (row_get column r) (row_get column r) = true →
  ∃ fold va,
    fold ∈ unique cell_same col ∧ where_eq df column fold = Ok va ∧ r ∈ rows va.
Proof.
  intros Hcol Hr Hrefl.
  assert (col = map (row_get column) (rows df)) as ->.
  { unfold getitem in Hcol. case_bool_decide; [|done]. by injection Hcol. }
  destruct (unique_from_stands cell_same [] (map (row_get column) (rows df))
              (row_get column r)) as (fold & [Hf|Hf] & Hfold).
  { apply list_elem_of_fmap. by exists r. }
  { by apply elem_of_nil in Hf. }
  assert (cell_eq (row_get column r) fold = true) as Heq.
  { destruct Hfold as [->|Hsame]; [done|]. by apply cell_same_eq. }
  exists fold. unfold where_eq. rewrite Hcol. eexists. split; [done|]. split; [done|].
  cbn. rewrite map_map.
  apply (elem_of_select_mask (λ r, cell_eq (row_get column r) fold)). done.
Qed.

Lemma validation_folds_cover_witness :
  ∃ fold va,
    fold ∈ unique cell_same [CInt 0; CInt 1; CInt 0] ∧
    where_eq demo_df "fold" fold = Ok va ∧ demo_row 2 0 "a_2" ∈ rows va.
Proof.
  apply (validation_folds_cover demo_df "fold" [CInt 0; CInt 1; CInt 0]
           (demo_row 2 0 "a_2")).
  - vm_compute. reflexivity.
  - right. right. by left.
  - vm_compute. reflexivity.
Defined.

(** A row whose cv value is NaN is in no validation frame and in every
    training frame. *)
Theorem nan_rows_are_never_validated df column fold tr va r :
  cell_eq (row_get column r) (row_get column r) = false →
  r ∈ rows df →
  where_ne df column fold = Ok tr →
  where_eq df column fold = Ok va →
  r ∈ rows tr ∧ r ∉ rows va.
Proof.
  intros Hnan Hr [_ Htr]%where_ne_rows Hva.
  assert (cell_eq (row_get column r) fold = false) as Hne.
  { destruct (cell_eq (row_get column r) fold) eqn:H; [|done].
    pose proof (cell_eq_trans _ _ _ (cell_eq_sym _ _ H) (cell_eq_sym _ _ H)).
    congruence. }
  split.
  - rewrite Htr.
    apply (elem_of_select_mask (λ r, negb (cell_eq (row_get column r) fold))).
    by rewrite Hne.
  - rewrite (elem_of_where_eq _ _ _ _ _ Hva). intros [_ H]. congruence.
Qed.

Lemma nan_rows_are_never_validated_witness :
  demo_nan_row ∈ [demo_nan_row] ∧ demo_nan_row ∉ [demo_row 0 0 "a_1"].
Proof.
  apply (nan_rows_are_never_validated demo_nan_df "fold" (CInt 0)
           {| columns := ["fold"; "tile_name"]; rows := [demo_nan_row] |}
           {| columns := ["fold"; "tile_name"]; rows := [demo_row 0 0 "a_1"] |}
           demo_nan_row).
  - vm_compute. reflexivity.
  - right. by left.
  - vm_compute. reflexivity.
  - vm_compute. reflexivity.
Defined.

(** ** The images of a fold *)

Lemma split_head_no_underscore s : contains "_" (split_head s) = false.
Proof.
  induction s as [|c s IH]; [done|]. cbn [split_head].
  destruct (Ascii.eqb c "_") eqn:Hc; [done|].
  cbn [contains is_prefix]. rewrite IH, Ascii.eqb_sym, Hc. done.
Qed.

Lemma apply_split_head_elem cs ss img :
  apply_split_head cs = Ok ss →
  img ∈ ss ↔ ∃ tile, CStr tile ∈ cs ∧ img = split_head tile.
Proof.
  revert ss. induction cs as [|c cs IH]; intros ss; cbn.
  - intros [= <-]. split; [by intros ?%elem_of_nil|by intros (? & ?%elem_of_nil & _)].
  - destruct c as [| |tile]; try done.
    destruct (apply_split_head cs) as [ss'|] eqn:Hcs; [|done].
    intros [= <-]. rewrite elem_of_cons, (IH ss' eq_refl). split.
    + intros [->|(t & Ht & ->)]; [exists tile|exists t]; split; try done;
        [by left|by right].
    + intros (t & [[= <-]|Ht]%elem_of_cons & ->); [by left|right; eauto].
Qed.

Lemma unique_from_eq {A} (same : A → A → bool) seen xs :
  (∀ x y, same x y = true ↔ x = y) →
  NoDup (unique_from same seen xs) ∧
  ∀ x, x ∈ unique_from same seen xs ↔ x ∈ xs ∧ x ∉ seen.
Proof.
  intros Hsame.
  assert (∀ x seen', existsb (same x) seen' = true ↔ x ∈ seen') as Hin.
  { intros x seen'. rewrite existsb_elem. split.
    - by intros (y & Hy & ->%Hsame).
    - intros Hx. exists x. split; [done|by apply Hsame]. }
  revert seen. induction xs as [|z xs IH]; intros seen; cbn.
  - split; [constructor|]. intros x. split; [by intros ?%elem_of_nil|].
    by intros [?%elem_of_nil _].
  - destruct (existsb (same z) seen) eqn:Hz.
    + apply Hin in Hz. destruct (IH seen) as [Hnd Hel]. split; [done|].
      intros x. rewrite Hel, elem_of_cons. split; [tauto|].
      intros [[->|Hx] Hns]; [done|tauto].
    + assert (z ∉ seen) as Hzs.
      { intros Hzs%Hin. congruence. }
      destruct (IH (z :: seen)) as [Hnd Hel]. split.
      * constructor; [|done]. rewrite Hel, elem_of_cons. tauto.
      * intros x. rewrite !elem_of_cons, Hel, elem_of_cons. split.
        -- intros [->|[Hx Hns]]; [tauto|tauto].
        -- intros [[->|Hx] Hns]; [by left|].
           destruct (same x z) eqn:Hxz; [left; by apply Hsame|right].
           split; [done|]. rewrite ?elem_of_cons. intros [->|?]; [|done].
           assert (same z z = true) by (by apply Hsame). congruence.
Qed.

(** The images of a fold are the tile names up to their first
    underscore: each of them once, none with an underscore in it, one
    for every tile of the fold. *)
Theorem images_of_tiles df_val imgs :
  images_of df_val = Ok imgs →
  NoDup imgs ∧
  Forall (λ img, contains "_" img = false) imgs ∧
  ∀ img, img ∈ imgs ↔
    ∃ r tile, r ∈ rows df_val ∧ row_get "tile_name" r = CStr tile ∧ img = split_head tile.
Proof.
  unfold images_of, getitem. case_bool_decide; [|done].
  destruct (apply_split_head _) as [heads|] eqn:Hheads; [|done].
  intros [= <-].
  destruct (unique_from_eq String.eqb [] heads String.eqb_eq) as [Hnd Hel].
  assert (∀ img, img ∈ unique String.eqb heads ↔
            ∃ r tile, r ∈ rows df_val ∧ row_get "tile_name" r = CStr tile ∧
                      img = split_head tile) as Himg.
  { intros img. unfold unique. rewrite Hel, (apply_split_head_elem _ _ _ Hheads). split.
    - intros [(tile & (r & Hr & Hrow)%list_elem_of_fmap & ->) _]. by exists r, tile.
    - intros (r & tile & Hr & Hrow & ->). split; [|by intros ?%elem_of_nil].
      exists tile. split; [|done]. apply list_elem_of_fmap. by exists r. }
  split; [done|]. split; [|done].
  apply Forall_forall. intros img (r & tile & _ & _ & ->)%Himg.
  apply split_head_no_underscore.
Qed.

Lemma images_of_tiles_witness :
  images_of demo_df = Ok ["a"; "b"] ∧ NoDup ["a"; "b"].
Proof.
  split; [vm_compute; reflexivity|].
  apply (images_of_tiles demo_df ["a"; "b"]). vm_compute. reflexivity.
Defined.

(** ** A given threshold *)

Lemma validate_inf_image_given_threshold params model config log_folder full tta save
    df_info rles rles_full img scores g bs hp :
  wp binarized
    (Inference.validate_inf_image params model config log_folder full tta save
       df_info rles rles_full img (scores, Some g))
    (λ r s' _,
       match r with
       | Ok locals => locals.2 = Some g ∧ s' = bs ++ [g]
       | Raise _ => s' = bs ∨ s' = bs ++ [g]
       end) bs hp.
Proof.
  unfold Inference.validate_inf_image, Inference.shape_of. cbn [fst snd].
  destruct full; cbn; wp_go; cbn; auto.
Qed.

(** With a [global_threshold], [validate_inf] binarizes every
    prediction at it, at full size and on downscaled images alike: in a
    run that does not raise, once for each image. *)
Theorem validate_inf_global_threshold params model config val_images log_folder full g
    tta save env h hp :
  let run :=
    Inference.validate_inf params model config val_images log_folder full (Some g) tta save
      env h hp in
  Forall (λ t, t = g) (observe binarized [] (events run)) ∧
  (is_ok (outcome run) = true →
   observe binarized [] (events run) = replicate (length val_images) g).
Proof.
  intros run.
  enough (∃ k, observe binarized [] (events run) = replicate k g ∧
               (is_ok (outcome run) = true → k = length val_images)) as (k & H & Hk).
  { rewrite H. split; [by apply Forall_replicate|]. intros Hok. by rewrite Hk. }
  apply (wp_run binarized _
    (λ r s _, ∃ k, s = replicate k g ∧ (is_ok r = true → k = length val_images))).
  unfold Inference.validate_inf.
  wp_go; cbn; try (by exists 0).
  apply (wp_for_in binarized _
    (λ rest locals s _,
       locals.2 = Some g ∧
       ∃ k, s = replicate k g ∧ k + length rest = length val_images)).
  - intros img rest [scores g'] s hp' [Hg (k & -> & Hk)]. cbn in Hg, Hk. subst g'.
    eapply wp_mono; [apply validate_inf_image_given_threshold|].
    intros [locals|e] s' hp''; cbn beta iota.
    + intros [Hl ->]. split; [done|]. exists (S k).
      rewrite replicate_S_end. split; [done|lia].
    + intros [->| ->]; [by exists k|]. exists (S k). by rewrite replicate_S_end.
  - intros locals s hp' [_ (k & -> & Hk)]. cbn in Hk. wp_go.
    exists k. split; [done|]. intros _. lia.
  - split; [done|]. by exists 0.
Qed.

(** ** Where [k_fold] writes *)

Lemma is_prefix_self_app folder name : is_prefix folder (folder +:+ name) = true.
Proof.
  induction folder as [|c folder IH]; [done|].
  change (String c folder +:+ name) with (String c (folder +:+ name)). cbn.
  by rewrite Ascii.eqb_refl.
Qed.

Lemma is_prefix_refl folder : is_prefix folder folder = true.
Proof. induction folder as [|c folder IH]; [done|]. cbn. by rewrite Ascii.eqb_refl. Qed.

Ltac only_written :=
  repeat (cbn beta iota; first
    [ apply only_ret | apply only_lift | apply only_new_list | apply only_list_append
    | apply only_emit; reflexivity
    | apply only_ext; intros; cbn;
        first [reflexivity | apply is_prefix_self_app | apply is_prefix_refl]
    | apply only_for_in; intros
    | apply only_for_each; intros
    | apply only_bind; [|intros]
    | match goal with
      | |- only _ (if ?b then _ else _) => destruct b
      | |- only _ (match ?x with _ => _ end) => destruct x
      end ]).

(** Every file that [k_fold] writes, it writes under the log folder:
    weights, traced models, predictions and histories. *)
Theorem k_fold_writes_under_log_folder params config df folder env h hp :
  forallb (writes_under folder)
    (events (Training.k_fold params config df (Some folder) env h hp)) = true.
Proof.
  assert (only (writes_under folder) (Training.k_fold params config df (Some folder))) as H;
    [|apply H].
  unfold Training.k_fold, Training.k_fold_loop, Training.k_fold_step, Training.train,
    Training.validate, Training.validate_image.
  only_written.
Qed.

(** ** The validation inside [k_fold] *)

Ltac only_downscaled :=
  repeat (cbn beta iota; first
    [ apply only_ret | apply only_lift | apply only_new_list | apply only_list_append
    | apply only_emit; reflexivity
    | apply only_ext; intros; cbn;
        rewrite ?is_prefix_self_app, ?String.eqb_refl, ?Z.eqb_refl; reflexivity
    | apply only_for_in; intros
    | apply only_for_each; intros
    | apply only_bind; [|intros]
    | match goal with
      | |- only _ (if ?b then _ else _) => destruct b
      | |- only _ (match ?x with _ => _ end) => destruct x
      end ]).

(** [k_fold] validates on the images downscaled by four only: it reads
    the encodings of [train_4.csv], takes every image from [TIFF_PATH_4]
    without reducing it further, predicts with a quarter of the
    validation batch size and never scales a prediction up. *)
Theorem k_fold_validates_downscaled params config df log_folder env h hp :
  forallb (downscaled_validation params config)
    (events (Training.k_fold params config df log_folder env h hp)) = true.
Proof.
  assert (only (downscaled_validation params config)
            (Training.k_fold params config df log_folder)) as H; [|apply H].
  unfold Training.k_fold, Training.k_fold_loop, Training.k_fold_step, Training.train,
    Training.validate, Training.validate_image.
  only_downscaled.
Qed.
